(** * omlet: metric book-keeping of [ExtendedModule]

    A shallow embedding of the metric aggregation code of
    [omlet/lightning/extended.py]: the per-stage epoch meters, the epoch
    history and the best-metric table, together with the properties the
    specification states about them.

    Conventions.
    - Python dictionaries keyed by strings are [gmap string _].
    - Metric values (Python floats) are rationals [Q]; equality of values
      is [Qeq] (Python's [==]), batch sizes and epoch numbers are [Z].
    - A Python exception is the left injection of [result]. *)

From Stdlib Require Import ZArith QArith String Ascii.
From stdpp Require Import gmap strings list fin_maps sorting.

Local Open Scope Z_scope.

(** ** Exceptions *)

Inductive exn : Type :=
  | KeyError
  | AssertionError
  | NotImplementedError
  | ValueError
  | InvalidUpdateError.

Definition result (A : Type) : Type := (exn + A)%type.

Definition ok {A} (a : A) : result A := inr a.
Definition raise {A} (e : exn) : result A := inl e.

Global Instance result_ret : MRet result := λ A a, inr a.

Global Instance result_bind : MBind result := λ A B k c,
  match c with
  | inl e => inl e
  | inr a => k a
  end.

Global Instance result_fmap : FMap result := λ A B f c,
  match c with
  | inl e => inl e
  | inr a => inr (f a)
  end.

Definition assert (b : bool) : result unit :=
  if b then ok tt else raise AssertionError.

(** [for x in l: s = body x s], stopping at the first exception. *)
Fixpoint for_each {A S} (body : A → S → result S) (l : list A) (s : S)
  : result S :=
  match l with
  | [] => ok s
  | x :: l' => s' ← body x s; for_each body l' s'
  end.

(** [for k, v in d.items(): ...].  The items come in the order of the
    keys; none of the loops below depends on the order. *)
Definition for_items {V S} (body : string → V → S → result S)
    (d : gmap string V) (s : S) : result S :=
  for_each (λ kv, body kv.1 kv.2) (map_to_list d) s.

(** [d.update(other)]: the entries of [other] win. *)
Definition dict_update {V} (d other : gmap string V) : gmap string V :=
  other ∪ d.

(** ** Stages *)

Inductive Stage : Type := train | val | test.

Global Instance Stage_eq_dec : EqDecision Stage.
Proof. solve_decision. Defined.

Definition STAGES : list Stage := [train; val; test].

Definition stage_name (st : Stage) : string :=
  match st with
  | train => "train"
  | val => "val"
  | test => "test"
  end.

(** A dictionary with exactly the three stage keys. *)
Record StageMap (A : Type) : Type := mkStageMap {
  at_train : A;
  at_val : A;
  at_test : A
}.
Arguments mkStageMap {A} _ _ _.
Arguments at_train {A} _.
Arguments at_val {A} _.
Arguments at_test {A} _.

Definition stage_get {A} (st : Stage) (d : StageMap A) : A :=
  match st with
  | train => at_train d
  | val => at_val d
  | test => at_test d
  end.

Definition stage_set {A} (st : Stage) (a : A) (d : StageMap A) : StageMap A :=
  match st with
  | train => mkStageMap a (at_val d) (at_test d)
  | val => mkStageMap (at_train d) a (at_test d)
  | test => mkStageMap (at_train d) (at_val d) a
  end.

(** ** The running-average meter *)

Module AverageMeter.

(** Modelled from the spec: the class [omlet.utils.AverageMeter], whose
    source is not among the files of the repository at hand.  The
    specification describes a meter by its accumulated weighted sum, its
    accumulated weight (a sample count) and its current average value. *)
Record t : Type := mk {
  sum : Q;
  count : Z;
  value : Q
}.

(** Modelled from the spec: [AverageMeter.reset], which zeroes the
    meter. *)
Definition reset (_ : t) : t := mk 0 0 0.

(** Modelled from the spec: the constructor [AverageMeter()]; a new meter
    has accumulated nothing. *)
Definition new : t := mk 0 0 0.

(** Modelled from the spec: [AverageMeter.update(value, n)], which
    signals an error for a weight [n <= 0] and otherwise folds the value
    into the running weighted average. *)
Definition update (m : t) (v : Q) (n : Z) : result t :=
  if n <=? 0 then raise InvalidUpdateError
  else
    let s := (sum m + v * inject_Z n)%Q in
    let c := count m + n in
    ok (mk s c (s / inject_Z c)%Q).

End AverageMeter.

(** ** Strings *)

(** ['/' in s] for a one-character needle. *)
Fixpoint contains_char (c : ascii) (s : string) : bool :=
  match s with
  | EmptyString => false
  | String a s' => if Ascii.eqb a c then true else contains_char c s'
  end.

(** [s.split(c)] for a one-character separator. *)
Fixpoint split_on (c : ascii) (s : string) : list string :=
  match s with
  | EmptyString => [EmptyString]
  | String a s' =>
      if Ascii.eqb a c then EmptyString :: split_on c s'
      else match split_on c s' with
           | [] => [String a EmptyString]
           | piece :: rest => String a piece :: rest
           end
  end.

(** [{key(k): v for k, v in d.items()}]: a later item overwrites. *)
Definition dict_rekey {V} (key : string → string) (d : gmap string V)
  : gmap string V :=
  foldl (λ acc kv, <[key kv.1 := kv.2]> acc) ∅ (map_to_list d).

(** ** The module state *)

(** One entry of [_metrics_history]:
    [{'epoch': e, 'train': {..}, 'val': {..}, 'test': {..}}]. *)
Record EpochInfo : Type := mkEpochInfo {
  epoch : Z;
  stage_metrics : StageMap (gmap string Q)
}.

(** One entry of [_best_metrics_values]: [{'value': v, 'epoch': e}]. *)
Record BestInfo : Type := mkBestInfo {
  best_value : Q;
  best_epoch : Z
}.

(** What the module reads from its trainer and from the distributed
    helpers.  [reduce_scalars] stands for
    [dist.reduce_scalars(_, broadcast=True, device=_, op='mean')]. *)
Record Trainer : Type := mkTrainer {
  current_epoch : Z;
  global_step : Z;
  use_ddp : bool;
  reduce_scalars : gmap string Q → gmap string Q
}.

(** The hyper-parameters read by [__init__]; [None] is an absent key. *)
Record Conf : Type := mkConf {
  conf_train_metrics : option (list string);
  conf_val_metrics : option (list string);
  conf_test_metrics : option (list string);
  conf_best_metrics : option (gmap string string);
  conf_debug : option bool
}.

(** The argument of [__init__]: a [DictConfig], an [argparse.Namespace],
    or anything else. *)
Inductive HParams : Type :=
  | HDictConfig (c : Conf)
  | HNamespace (c : Conf)
  | HOther.

(** What [_epoch_end] returns: [{'progress_bar': .., 'log': ..}]. *)
Record EpochEndOutput : Type := mkEpochEndOutput {
  progress_bar : gmap string Q;
  log : gmap string Q
}.

Module ExtendedModule.

(** The attributes [__init__] sets (lines 87-104). *)
Record t : Type := mk {
  debug : bool;
  _metrics_meter : StageMap (gmap string AverageMeter.t);
  _train_step_meter : gmap string AverageMeter.t;
  _metrics_history : list EpochInfo;
  _best_metrics_values : gmap string BestInfo;
  _best_metrics_spec : gmap string string;
  _is_training_started : bool
}.

Definition set_metrics_meter (v : StageMap (gmap string AverageMeter.t))
    (self : t) : t :=
  mk (debug self) v (_train_step_meter self) (_metrics_history self)
     (_best_metrics_values self) (_best_metrics_spec self)
     (_is_training_started self).

Definition set_train_step_meter (v : gmap string AverageMeter.t)
    (self : t) : t :=
  mk (debug self) (_metrics_meter self) v (_metrics_history self)
     (_best_metrics_values self) (_best_metrics_spec self)
     (_is_training_started self).

Definition set_metrics_history (v : list EpochInfo) (self : t) : t :=
  mk (debug self) (_metrics_meter self) (_train_step_meter self) v
     (_best_metrics_values self) (_best_metrics_spec self)
     (_is_training_started self).

Definition set_best_metrics_values (v : gmap string BestInfo)
    (self : t) : t :=
  mk (debug self) (_metrics_meter self) (_train_step_meter self)
     (_metrics_history self) v (_best_metrics_spec self)
     (_is_training_started self).

Definition set_is_training_started (v : bool) (self : t) : t :=
  mk (debug self) (_metrics_meter self) (_train_step_meter self)
     (_metrics_history self) (_best_metrics_values self)
     (_best_metrics_spec self) v.

(** *** Construction *)

(** Lines 108-111; a [default] of [None] is ['__required__']. *)
Definition _check_hparams {A} (entry : option A) (default : option A)
  : result A :=
  match entry, default with
  | Some a, _ => ok a
  | None, Some d => ok d
  | None, None => raise KeyError
  end.

(** [{m: U.AverageMeter() for m in names}] *)
Definition fresh_meters (names : list string) : gmap string AverageMeter.t :=
  foldl (λ acc m, <[m := AverageMeter.new]> acc) ∅ names.

(** The body of the loop over [best_metrics.items()] (lines 100-102). *)
Definition check_best_entry (name value : string) (_ : unit) : result unit :=
  _ ← assert (contains_char "/" name);
  assert (bool_decide (value ∈ ["min"; "max"]%string)).

(** Lines 71-106. *)
Definition __init__ (hparams : HParams) : result t :=
  conf ← match hparams with
          | HDictConfig c => ok c
          | HNamespace c => ok c
          | HOther => raise NotImplementedError
          end;
  train_metrics ← _check_hparams (conf_train_metrics conf) None;
  val_metrics ← _check_hparams (conf_val_metrics conf) None;
  test_metrics ← _check_hparams (conf_test_metrics conf) (Some val_metrics);
  best_metrics ← _check_hparams (conf_best_metrics conf) (Some ∅);
  debug ← _check_hparams (conf_debug conf) (Some false);
  let meters :=
    mkStageMap (fresh_meters train_metrics) (fresh_meters val_metrics)
               (fresh_meters test_metrics) in
  _ ← for_items check_best_entry best_metrics tt;
  ok (mk debug meters (fresh_meters train_metrics) [] ∅ best_metrics false).

(** *** Metrics book-keeping *)

(** Lines 328-331; [stages = None] is the default ['all']. *)
Definition _reset_epoch_metrics (stages : option Stage) (self : t) : t :=
  foldl
    (λ self stage,
       set_metrics_meter
         (stage_set stage
            (AverageMeter.reset <$> stage_get stage (_metrics_meter self))
            (_metrics_meter self))
         self)
    self
    (match stages with None => STAGES | Some stage => [stage] end).

(** Lines 333-335. *)
Definition _reset_train_step_metrics (self : t) : t :=
  set_train_step_meter (AverageMeter.reset <$> _train_step_meter self) self.

(** Lines 337-341.  With the default [name_template='{name}'] the keys
    are the meter names. *)
Definition _get_avg_epoch_metrics (stage : Stage) (self : t)
  : gmap string Q :=
  AverageMeter.value <$> stage_get stage (_metrics_meter self).

(** The body of the loops of [_update_epoch_metrics] and
    [_update_train_step_metrics]:
    [if key in meters: meters[key].update(value, batch_size)]. *)
Definition update_meter (batch_size : Z) (key : string) (value : Q)
    (meters : gmap string AverageMeter.t)
  : result (gmap string AverageMeter.t) :=
  match meters !! key with
  | Some meter =>
      meter' ← AverageMeter.update meter value batch_size;
      ok (<[key := meter']> meters)
  | None => ok meters
  end.

(** Lines 349-352. *)
Definition _update_epoch_metrics (stage : Stage) (output : gmap string Q)
    (batch_size : Z) (self : t) : result t :=
  meters ← for_items (update_meter batch_size) output
              (stage_get stage (_metrics_meter self));
  ok (set_metrics_meter (stage_set stage meters (_metrics_meter self)) self).

(** Lines 354-357. *)
Definition _update_train_step_metrics (output : gmap string Q)
    (batch_size : Z) (self : t) : result t :=
  meters ← for_items (update_meter batch_size) output
              (_train_step_meter self);
  ok (set_train_step_meter meters self).

(** Lines 359-371. *)
Definition _update_best_metrics (tr : Trainer) (metric_name : string)
    (new_value : Q) (self : t) : result t :=
  match _best_metrics_spec self !! metric_name with
  | None => raise AssertionError
  | Some direction =>
      let is_max := String.eqb direction "max" in
      let entry := mkBestInfo new_value (current_epoch tr) in
      match _best_metrics_values self !! metric_name with
      | Some info =>
          if (is_max && Qle_bool (best_value info) new_value)
             || (negb is_max && Qle_bool new_value (best_value info))
          then ok (set_best_metrics_values
                     (<[metric_name := entry]> (_best_metrics_values self))
                     self)
          else ok self
      | None =>
          ok (set_best_metrics_values
                (<[metric_name := entry]> (_best_metrics_values self))
                self)
      end
  end.

(** Lines 373-374. *)
Definition _get_best_value (name : string) (self : t) : result Q :=
  match _best_metrics_values self !! name with
  | Some info => ok (best_value info)
  | None => raise KeyError
  end.

(** *** Recording *)

(** Lines 382-385. *)
Definition _add_extended_log (tr : Trainer) (log_dict : gmap string Q)
  : gmap string Q :=
  <["system/epoch" := inject_Z (current_epoch tr)]>
    (<["system/global_step" := inject_Z (global_step tr)]> log_dict).

(** Lines 318-325, for a dictionary of values. *)
Definition reduce (tr : Trainer) (values : gmap string Q) : gmap string Q :=
  if use_ddp tr then reduce_scalars tr values else values.

(** *** Epoch end *)

(** [{'epoch': e, 'train': {}, 'val': {}, 'test': {}}] *)
Definition new_epoch_info (e : Z) : EpochInfo :=
  mkEpochInfo e (mkStageMap ∅ ∅ ∅).

(** [info[stage].update(values)] on one history entry. *)
Definition update_stage (stage : Stage) (values : gmap string Q)
    (info : EpochInfo) : EpochInfo :=
  mkEpochInfo (epoch info)
    (stage_set stage
       (dict_update (stage_get stage (stage_metrics info)) values)
       (stage_metrics info)).

(** The history update of [_epoch_end] (lines 276-284), the
    [record_epoch] of the specification: a new entry is appended unless
    the last entry carries the current epoch, in which case that entry
    is updated in place. *)
Definition record_epoch (e : Z) (stage : Stage) (values : gmap string Q)
    (history : list EpochInfo) : list EpochInfo :=
  match last history with
  | None => history ++ [update_stage stage values (new_epoch_info e)]
  | Some latest =>
      if bool_decide (epoch latest ≠ e)
      then history ++ [update_stage stage values (new_epoch_info e)]
      else alter (update_stage stage values) (length history - 1)%nat history
  end.

(** [f'{stage}/{name}'] *)
Definition long_name (stage : Stage) (name : string) : string :=
  stage_name stage +:+ "/" +:+ name.

(** The body of the loop over [info_long_name.items()] (lines 286-295). *)
Definition track_best (tr : Trainer) (stage : Stage) (m : string)
    (new_value : Q) (acc : t * gmap string Q)
  : result (t * gmap string Q) :=
  let '(self, log) := acc in
  if bool_decide (is_Some (_best_metrics_spec self !! m)) then
    self ← _update_best_metrics tr m new_value self;
    match split_on "/" m with
    | [_stage; _name] =>
        _ ← assert (String.eqb (stage_name stage) _stage);
        let best_name := _stage +:+ "/best_" +:+ _name in
        best ← _get_best_value m self;
        ok (self, <[best_name := best]> log)
    | _ => raise ValueError
    end
  else ok (self, log).

(** Lines 262-305. *)
Definition _epoch_end (tr : Trainer) (stage : Stage) (self : t)
  : result (t * EpochEndOutput) :=
  let _info := _get_avg_epoch_metrics stage self in
  let info_short_name := reduce tr _info in
  let info_long_name := dict_rekey (long_name stage) info_short_name in
  let pbar := info_long_name in
  let log := info_long_name in
  '(self, log) ←
    (if _is_training_started self then
       let self :=
         set_metrics_history
           (record_epoch (current_epoch tr) stage info_short_name
              (_metrics_history self))
           self in
       for_items (track_best tr stage) info_long_name (self, log)
     else ok (self, log));
  let log := <["step" := inject_Z (current_epoch tr)]> log in
  let log := _add_extended_log tr log in
  ok (self, mkEpochEndOutput pbar log).

(** *** Hooks *)

(** Lines 388-391. *)
Definition on_epoch_start (self : t) : t :=
  set_is_training_started true
    (_reset_train_step_metrics (_reset_epoch_metrics None self)).

(** Lines 402-406. *)
Definition on_load_checkpoint (history : list EpochInfo)
    (best : gmap string BestInfo) (self : t) : t :=
  set_best_metrics_values best (set_metrics_history history self).

End ExtendedModule.

(** ** Runs of calls, and what the specification compares them with *)

(** One call [_update_epoch_metrics(stage, output, batch_size)].  The
    [update(stage, m, v, w)] of the specification is the call whose
    [output] is [{m: v}] and whose [batch_size] is [w]. *)
Record UpdateCall : Type := mkUpdateCall {
  call_stage : Stage;
  call_output : gmap string Q;
  call_batch_size : Z
}.

Definition run_updates (calls : list UpdateCall) (self : ExtendedModule.t)
  : result ExtendedModule.t :=
  for_each
    (λ c, ExtendedModule._update_epoch_metrics
            (call_stage c) (call_output c) (call_batch_size c))
    calls self.

(** The values and weights the calls supply for metric [m] of [stage],
    in call order. *)
Definition supplied (stage : Stage) (m : string) (calls : list UpdateCall)
  : list (Q * Z) :=
  omap (λ c, if decide (call_stage c = stage)
             then (λ v, (v, call_batch_size c)) <$> call_output c !! m
             else None)
       calls.

Definition weighted_sum (obs : list (Q * Z)) : Q :=
  foldr (λ vw acc, (vw.1 * inject_Z vw.2 + acc)%Q) 0%Q obs.

Definition total_weight (obs : list (Q * Z)) : Z :=
  foldr (λ vw acc, vw.2 + acc) 0 obs.

Definition weighted_mean (obs : list (Q * Z)) : Q :=
  (weighted_sum obs / inject_Z (total_weight obs))%Q.

(** One history update [record_epoch(epoch_index, stage, averages)]. *)
Record RecordCall : Type := mkRecordCall {
  rec_epoch : Z;
  rec_stage : Stage;
  rec_values : gmap string Q
}.

Definition run_records (calls : list RecordCall) (history : list EpochInfo)
  : list EpochInfo :=
  foldl
    (λ h c, ExtendedModule.record_epoch
              (rec_epoch c) (rec_stage c) (rec_values c) h)
    history calls.

Definition epochs (history : list EpochInfo) : list Z := epoch <$> history.

(** The epoch indices of a history grow strictly from one record to the
    next. *)
Fixpoint strictly_increasing (l : list Z) : Prop :=
  match l with
  | [] => True
  | x :: l' => match l' with
               | [] => True
               | y :: _ => x < y
               end ∧ strictly_increasing l'
  end.

(** The epoch indices handed to [record_epoch] never go down. *)
Fixpoint non_decreasing (l : list Z) : Prop :=
  match l with
  | [] => True
  | x :: l' => match l' with
               | [] => True
               | y :: _ => x <= y
               end ∧ non_decreasing l'
  end.

(** What a successful [AverageMeter.update] leaves behind. *)
Definition meter_add (n : Z) (v : Q) (mt : AverageMeter.t)
  : AverageMeter.t :=
  let s := (AverageMeter.sum mt + v * inject_Z n)%Q in
  let c := AverageMeter.count mt + n in
  AverageMeter.mk s c (s / inject_Z c)%Q.

(** The meter [mt] has accumulated exactly the observations [obs]. *)
Definition meter_tracks (obs : list (Q * Z)) (mt : AverageMeter.t) : Prop :=
  (AverageMeter.sum mt == weighted_sum obs)%Q ∧
  AverageMeter.count mt = total_weight obs ∧
  (obs ≠ [] →
   AverageMeter.value mt
   = (AverageMeter.sum mt / inject_Z (AverageMeter.count mt))%Q).

(** "At least as good under the configured direction": [v >= best] for
    direction [max], [v <= best] for direction [min]. *)
Definition at_least_as_good (direction : string) (v best : Q) : Prop :=
  (direction = "max" ∧ (best <= v)%Q) ∨ (direction = "min" ∧ (v <= best)%Q).

(** "Strictly worse under the configured direction". *)
Definition strictly_worse (direction : string) (v best : Q) : Prop :=
  (direction = "max" ∧ (v < best)%Q) ∨ (direction = "min" ∧ (best < v)%Q).

(** A well-formed entry of the best-metric specification. *)
Definition well_formed_entry (name direction : string) : Prop :=
  contains_char "/" name = true ∧ (direction = "min" ∨ direction = "max").

(** ** A small configuration used for concrete checks *)

Definition demo_conf : Conf :=
  mkConf (Some ["loss"; "acc"]%string) (Some ["loss"; "acc"]%string) None
         (Some {["val/acc" := "max"; "val/loss" := "min"]}%string) None.

(** The module [__init__] builds from [demo_conf]. *)
Definition demo_module : ExtendedModule.t :=
  let meters := ExtendedModule.fresh_meters ["loss"; "acc"]%string in
  ExtendedModule.mk false (mkStageMap meters meters meters) meters [] ∅
    {["val/acc" := "max"; "val/loss" := "min"]}%string false.

Definition demo_trainer (e : Z) : Trainer := mkTrainer e 0 false id.

Definition demo_calls : list UpdateCall :=
  [ mkUpdateCall train {["loss" := 1 # 2; "lr" := 3 # 1]}%Q 4;
    mkUpdateCall val {["loss" := 7 # 1]}%Q 8;
    mkUpdateCall train {["loss" := 1 # 1]}%Q 2 ].

(** [demo_module] after the updates [demo_calls]. *)
Definition demo_trained : ExtendedModule.t :=
  match run_updates demo_calls demo_module with
  | inr self => self
  | inl _ => demo_module
  end.

(** [demo_module] with best values recorded at epoch 1. *)
Definition demo_best : ExtendedModule.t :=
  ExtendedModule.set_best_metrics_values
    {["val/acc" := mkBestInfo (10 # 1) 1; "val/loss" := mkBestInfo (1 # 2) 1]}
    demo_module.

(** Three history updates that come back to an earlier epoch index. *)
Definition demo_revisit : list RecordCall :=
  [ mkRecordCall 3 train {["loss" := 1 # 2]}%Q;
    mkRecordCall 4 train {["loss" := 1 # 4]}%Q;
    mkRecordCall 3 val {["loss" := 1 # 3]}%Q ].

(** The updates of two epochs in the order a training run makes them. *)
Definition demo_run : list RecordCall :=
  [ mkRecordCall 3 train {["loss" := 1 # 2]}%Q;
    mkRecordCall 3 val {["loss" := 1 # 3]}%Q;
    mkRecordCall 4 train {["loss" := 1 # 4]}%Q;
    mkRecordCall 4 val {["loss" := 1 # 5]}%Q ].

(** ** Further runs *)

(** A sequence of [_update_best_metrics(metric_name, value)] calls for one
    metric, each under the trainer state of its epoch. *)
Definition run_best (metric_name : string) (obs : list (Trainer * Q))
    (self : ExtendedModule.t) : result ExtendedModule.t :=
  for_each (λ o, ExtendedModule._update_best_metrics o.1 metric_name o.2)
    obs self.

(** The entry [_update_best_metrics] leaves for a metric of the given
    direction, from the entry [old] it finds. *)
Definition best_entry_after (tr : Trainer) (direction : string) (v : Q)
    (old : option BestInfo) : BestInfo :=
  match old with
  | None => mkBestInfo v (current_epoch tr)
  | Some info =>
      if (String.eqb direction "max" && Qle_bool (best_value info) v)
         || (negb (String.eqb direction "max") && Qle_bool v (best_value info))
      then mkBestInfo v (current_epoch tr)
      else info
  end.

(** [f'{_stage}/best_{_name}'] *)
Definition best_name (stage : Stage) (name : string) : string :=
  stage_name stage +:+ "/best_" +:+ name.

(** A configuration whose tracked validation metric has a ['/'] in its
    short name. *)
Definition slash_conf : Conf :=
  mkConf (Some ["loss"]%string) (Some ["top/1"]%string) None
         (Some {["val/top/1" := "max"]}%string) None.

Definition slash_module : ExtendedModule.t :=
  ExtendedModule.mk false
    (mkStageMap (ExtendedModule.fresh_meters ["loss"]%string)
       (ExtendedModule.fresh_meters ["top/1"]%string)
       (ExtendedModule.fresh_meters ["top/1"]%string))
    (ExtendedModule.fresh_meters ["loss"]%string) [] ∅
    {["val/top/1" := "max"]}%string false.

(** [demo_module] after [on_epoch_start] and the updates [demo_calls]. *)
Definition demo_started : ExtendedModule.t :=
  match run_updates demo_calls (ExtendedModule.on_epoch_start demo_module) with
  | inr self => self
  | inl _ => demo_module
  end.

(** ** Further exceptions *)

(** The exceptions of the code below: the ones above and three more. *)
Inductive exception : Type :=
  | Exn (e : exn)
  | ZeroDivisionError
  | IndexError
  | TypeError
  | AttributeError.

Definition outcome (A : Type) : Type := (exception + A)%type.

Global Instance outcome_ret : MRet outcome := λ A a, inr a.

Global Instance outcome_bind : MBind outcome := λ A B k c,
  match c with
  | inl e => inl e
  | inr a => k a
  end.

Global Instance outcome_fmap : FMap outcome := λ A B f c,
  match c with
  | inl e => inl e
  | inr a => inr (f a)
  end.

Definition returns {A} (a : A) : outcome A := inr a.
Definition throw {A} (e : exception) : outcome A := inl e.

(** A computation that raises only the exceptions of [exn]. *)
Definition lift {A} (c : result A) : outcome A :=
  match c with
  | inl e => inl (Exn e)
  | inr a => inr a
  end.

(** ** Checkpoints *)

Module Checkpoint.

(** The dictionary stored under ['extended']; [None] is an absent key. *)
Record Extended : Type := mkExtended {
  metrics_history : option (list EpochInfo);
  best_metrics : option (gmap string BestInfo)
}.

(** A checkpoint dictionary: its ['extended'] entry and the entries the
    framework keeps in it. *)
Record t (A : Type) : Type := mk {
  extended : option Extended;
  framework : A
}.
Arguments mk {A} _ _.
Arguments extended {A} _.
Arguments framework {A} _.

(** Lines 393-400. *)
Definition on_save_checkpoint {A} (self : ExtendedModule.t)
    (checkpoint : t A) : t A :=
  mk (Some (mkExtended (Some (ExtendedModule._metrics_history self))
              (Some (ExtendedModule._best_metrics_values self))))
     (framework checkpoint).

(** Lines 402-406; a missing key raises [KeyError]. *)
Definition on_load_checkpoint {A} (checkpoint : t A)
    (self : ExtendedModule.t) : result ExtendedModule.t :=
  match extended checkpoint with
  | None => raise KeyError
  | Some ext =>
      match metrics_history ext, best_metrics ext with
      | Some history, Some best =>
          ok (ExtendedModule.on_load_checkpoint history best self)
      | _, _ => raise KeyError
      end
  end.

End Checkpoint.

(** ** Data loaders *)

Module Loader.

(** The arguments [get_dataloader] hands to [torch.utils.data.DataLoader]. *)
Record DataLoader (D : Type) : Type := mk {
  dataset : D;
  batch_size : Z;
  shuffle : bool;
  num_workers : Z
}.
Arguments mk {D} _ _ _ _.
Arguments dataset {D} _.
Arguments batch_size {D} _.
Arguments shuffle {D} _.
Arguments num_workers {D} _.

(** Lines 152-175.  [C] holds the integer entries of [self.conf]; a
    [default] of [None] is ['__required__'].  [%] and [//] are Python's:
    they raise [ZeroDivisionError] for a zero divisor and round down
    otherwise, as [Z.modulo] and [Z.div] do. *)
Definition _divide_by_gpu (C : gmap string Z) (num_gpus : Z) (name : string)
    (default : option Z) : outcome Z :=
  match C !! name with
  | Some local_value =>
      _ ← lift (assert (0 <? local_value));
      returns local_value
  | None =>
      match C !! ("global_" +:+ name) with
      | Some global_value =>
          if num_gpus =? 0 then throw ZeroDivisionError
          else
            _ ← lift (assert (global_value mod num_gpus =? 0));
            returns (global_value / num_gpus)
      | None =>
          match default with
          | None => throw (Exn KeyError)
          | Some local_value => returns local_value
          end
      end
  end.

(** Lines 177-197. *)
Definition get_dataloader {D} (C : gmap string Z) (num_gpus : Z)
    (tr : Trainer) (dataset : D) (stage : Stage) : outcome (DataLoader D) :=
  num_workers ← _divide_by_gpu C num_gpus "num_workers" (Some 8);
  match stage with
  | train =>
      batch_size ← _divide_by_gpu C num_gpus "batch_size" None;
      returns (mk dataset batch_size (negb (use_ddp tr)) num_workers)
  | _ =>
      eval_batch_size ← _divide_by_gpu C num_gpus "eval_batch_size" (Some (-1));
      eval_batch_size ←
        (if eval_batch_size =? -1
         then _divide_by_gpu C num_gpus "batch_size" None
         else returns eval_batch_size);
      returns (mk dataset eval_batch_size false num_workers)
  end.

End Loader.

(** ** Run names (omlet/lightning/trainer.py) *)

(** The characters the check runs over, in order: backslash, slash,
    dollar, hash, ampersand, bar, double quote (code 34), single quote,
    tilde, exclamation mark, caret, star, colon, less-than,
    greater-than. *)
Definition special_chars : list ascii :=
  list_ascii_of_string "\/$#&|" ++ ["034"%char]
  ++ list_ascii_of_string "'~!^*:<>".

(** Lines 33-36 of trainer.py. *)
Definition _check_run_name (run_name : string) : result unit :=
  for_each (λ special_char _, assert (negb (contains_char special_char run_name)))
    special_chars tt.

(** ** Steps *)

(** [for x in l: s = body x s] for bodies with the further exceptions. *)
Fixpoint for_each_o {A S} (body : A → S → outcome S) (l : list A) (s : S)
  : outcome S :=
  match l with
  | [] => returns s
  | x :: l' => s' ← body x s; for_each_o body l' s'
  end.

Definition for_items_o {V S} (body : string → V → S → outcome S)
    (d : gmap string V) (s : S) : outcome S :=
  for_each_o (λ kv, body kv.1 kv.2) (map_to_list d) s.

Module Step.

(** A value of the dictionary a step returns: a scalar, or a dictionary
    of scalars as under ['progress_bar'] and ['log']. *)
Inductive Value : Type :=
  | Scalar (v : Q)
  | Dict (d : gmap string Q).

(** What a step reads from the trainer besides [Trainer]. *)
Record Env : Type := mkEnv {
  use_dp : bool;
  use_ddp2 : bool;
  batch_idx : Z;
  row_log_interval : Z
}.

(** Lines 143-149.  A tensor is given by the sizes of its dimensions:
    unpacking an empty batch raises [ValueError], [size(0)] of a tensor
    without dimensions raises [IndexError]. *)
Definition get_batch_size (batch : list (list Z)) : outcome Z :=
  match batch with
  | [] => throw (Exn ValueError)
  | images :: _ =>
      match images with
      | [] => throw IndexError
      | n :: _ => returns n
      end
  end.

(** Modelled from the spec: [AverageMeter.update(value, n)] for a value of
    either kind.  The class is not among the files at hand; a scalar is
    folded in as [AverageMeter.update] does, and a dictionary, which
    cannot be weighted, raises [TypeError] once the weight is accepted. *)
Definition meter_update (meter : AverageMeter.t) (value : Value) (n : Z)
  : outcome AverageMeter.t :=
  match value with
  | Scalar v => lift (AverageMeter.update meter v n)
  | Dict _ =>
      if n <=? 0 then throw (Exn InvalidUpdateError) else throw TypeError
  end.

(** The loop of [_update_epoch_metrics] and [_update_train_step_metrics]
    over the whole output of a step. *)
Definition update_meter (batch_size : Z) (key : string) (value : Value)
    (meters : gmap string AverageMeter.t)
  : outcome (gmap string AverageMeter.t) :=
  match meters !! key with
  | Some meter =>
      meter' ← meter_update meter value batch_size;
      returns (<[key := meter']> meters)
  | None => returns meters
  end.

(** Lines 349-352, for the output of a step. *)
Definition _update_epoch_metrics (stage : Stage) (output : gmap string Value)
    (batch_size : Z) (self : ExtendedModule.t) : outcome ExtendedModule.t :=
  meters ← for_items_o (update_meter batch_size) output
              (stage_get stage (ExtendedModule._metrics_meter self));
  returns (ExtendedModule.set_metrics_meter
             (stage_set stage meters (ExtendedModule._metrics_meter self))
             self).

(** Lines 354-357, for the output of a step. *)
Definition _update_train_step_metrics (output : gmap string Value)
    (batch_size : Z) (self : ExtendedModule.t) : outcome ExtendedModule.t :=
  meters ← for_items_o (update_meter batch_size) output
              (ExtendedModule._train_step_meter self);
  returns (ExtendedModule.set_train_step_meter meters self).

(** Lines 343-347; [name_template] is given by what it makes of a name. *)
Definition _get_avg_train_step_metrics (name_template : string → string)
    (self : ExtendedModule.t) : gmap string Q :=
  dict_rekey name_template
    (AverageMeter.value <$> ExtendedModule._train_step_meter self).

(** ['train/stepwise_{name}'] *)
Definition stepwise_name (name : string) : string :=
  "train/stepwise_" +:+ name.

(** [output[key]] when it has to be a dictionary with an [update]
    method. *)
Definition nested (key : string) (output : gmap string Value)
  : outcome (gmap string Q) :=
  match output !! key with
  | Some (Dict d) => returns d
  | Some (Scalar _) => throw AttributeError
  | None => throw (Exn KeyError)
  end.

(** [if key not in output: output[key] = {}] *)
Definition setdefault_dict (key : string) (output : gmap string Value)
  : gmap string Value :=
  match output !! key with
  | Some _ => output
  | None => <[key := Dict ∅]> output
  end.

(** Lines 216-242. *)
Definition _after_step (tr : Trainer) (env : Env) (stage : Stage)
    (batch : list (list Z)) (output : gmap string Value)
    (self : ExtendedModule.t)
  : outcome (ExtendedModule.t * gmap string Value) :=
  _ ← lift (assert (negb (use_dp env) || use_ddp2 env));
  batch_size ← get_batch_size batch;
  self ← _update_epoch_metrics stage output batch_size self;
  let output := setdefault_dict "progress_bar" output in
  progress_bar ← nested "progress_bar" output;
  let progress_bar :=
    dict_update progress_bar
      (ExtendedModule._get_avg_epoch_metrics stage self) in
  let progress_bar := delete "loss" progress_bar in
  let output := <["progress_bar" := Dict progress_bar]> output in
  match stage with
  | train =>
      let output := setdefault_dict "log" output in
      self ← _update_train_step_metrics output batch_size self;
      log ← nested "log" output;
      let log :=
        dict_update log (_get_avg_train_step_metrics stepwise_name self) in
      let log := ExtendedModule._add_extended_log tr log in
      let output := <["log" := Dict log]> output in
      self ←
        (if row_log_interval env =? 0 then throw ZeroDivisionError
         else if batch_idx env mod row_log_interval env =? 0
              then returns (ExtendedModule._reset_train_step_metrics self)
              else returns self);
      returns (self, output)
  | _ => returns (self, output)
  end.

End Step.

(** The scalar entries of the output of a step. *)
Definition scalars (output : gmap string Step.Value) : gmap string Q :=
  omap (λ value, match value with
                 | Step.Scalar v => Some v
                 | Step.Dict _ => None
                 end) output.

(** No entry of the output that holds a dictionary is named like one of
    the meters. *)
Definition no_metered_dict (output : gmap string Step.Value)
    (meters : gmap string AverageMeter.t) : Prop :=
  ∀ k d, output !! k = Some (Step.Dict d) → meters !! k = None.

(** The dictionary a step's output holds under [key], empty when there is
    none. *)
Definition user_dict (key : string) (output : gmap string Step.Value)
  : gmap string Q :=
  match output !! key with
  | Some (Step.Dict d) => d
  | _ => ∅
  end.

(** The entry under [key], if any, is a dictionary. *)
Definition dict_or_absent (key : string) (output : gmap string Step.Value)
  : Prop :=
  ∀ v, output !! key ≠ Some (Step.Scalar v).

(** The progress bar [_after_step] shows for a stage: the epoch averages
    over the entries the step supplied, without ['loss']. *)
Definition shown_progress (stage : Stage) (output : gmap string Step.Value)
    (self : ExtendedModule.t) : gmap string Q :=
  delete "loss"
    (ExtendedModule._get_avg_epoch_metrics stage self
     ∪ user_dict "progress_bar" output).

(** The output of a training step of [demo_module]. *)
Definition demo_output : gmap string Step.Value :=
  {["loss" := Step.Scalar (1 # 2); "acc" := Step.Scalar (3 # 4);
    "progress_bar" := Step.Dict {["lr" := 1 # 10]}%Q]}.

Definition demo_env (batch_idx : Z) : Step.Env :=
  Step.mkEnv false false batch_idx 10.

(** ** Run names from command-line overrides
    (omlet/utils/config_utils.py) *)

Module ConfigUtils.

(** [cfg.omlet.override_name] *)
Record OverrideName : Type := mkOverrideName {
  kv_sep : string;
  item_sep : string;
  use_shorthand : bool;
  include_keys : option (list string);
  exclude_keys : list string
}.

(** [arg.split('=', 1)] for a one-character separator: what precedes its
    first occurrence and what follows it, [None] when it does not
    occur. *)
Fixpoint split_first (c : ascii) (s : string) : option (string * string) :=
  match s with
  | EmptyString => None
  | String a s' =>
      if Ascii.eqb a c then Some (EmptyString, s')
      else match split_first c s' with
           | Some (key, value) => Some (String a key, value)
           | None => None
           end
  end.

(** Python's order on pairs of strings: by the first components, and by
    the second ones when the first are equal. *)
Definition pair_le (p q : string * string) : Prop :=
  if decide (p.1 = q.1) then String.le p.2 q.2 else String.le p.1 q.1.

Global Instance pair_le_dec : RelDecision pair_le.
Proof. intros p q. unfold pair_le. case_decide; apply _. Defined.

(** The shorthand loop of [initialize_omlet_config] (lines 43-51): [cfg]
    holds the top-level entries of the configuration, [shorthand] the
    items of [om.shorthand], original name first. *)
Definition add_shorthand {V} (item : string * string)
    (acc : gmap string V * list string)
  : result (gmap string V * list string) :=
  let '(original, short) := item in
  let '(cfg, shortset) := acc in
  if bool_decide (short ∈ shortset) then raise KeyError
  else
    let cfg :=
      match cfg !! short with
      | Some value => delete short (<[original := value]> cfg)
      | None => cfg
      end in
    ok (cfg, short :: shortset).

Definition process_shorthands {V} (shorthand : list (string * string))
    (cfg : gmap string V) : result (gmap string V) :=
  acc ← for_each add_shorthand shorthand (cfg, []);
  ok acc.1.

Section with_fnmatch.

(** [fnmatch.fnmatch(name, pattern)] of Python's standard library. *)
Variable fnmatch : string → string → bool.

(** Lines 92-96. *)
Definition _match_patterns (patterns : list string) (key : string) : bool :=
  existsb (λ p, fnmatch key p) patterns.

(** The body of the loop over the overrides (lines 129-145);
    [shorthand] maps original names to short ones and [longhand] is its
    reverse. *)
Definition add_override (shorthand longhand : gmap string string)
    (override_cfg : OverrideName) (arg : string)
    (args : list (string * string)) : result (list (string * string)) :=
  match split_first "=" arg with
  | None => raise AssertionError
  | Some (key, value) =>
      let key := default key (longhand !! key) in
      let append :=
        match include_keys override_cfg with
        | Some patterns => _match_patterns patterns key
        | None => negb (_match_patterns (exclude_keys override_cfg) key)
        end in
      if append then
        let key :=
          if use_shorthand override_cfg
          then default key (shorthand !! key) else key in
        ok (args ++ [(key, value)])
      else ok args
  end.

(** Lines 106-149.  [hydra] and [omlet] tell whether Hydra and the omlet
    configuration are initialized, [shorthand] is [cfg.omlet.shorthand]
    as its list of items, [overrides] is [hydra_override_arg_list()].
    [args.sort()] is a sort by [pair_le], which is a total order. *)
Definition omlet_override_name (hydra omlet : bool)
    (shorthand : list (string * string)) (override_cfg : OverrideName)
    (overrides : list string) : result string :=
  _ ← assert (hydra && omlet);
  let longhand : gmap string string :=
    foldl (λ acc item, <[item.2 := item.1]> acc) ∅ shorthand in
  args ← for_each
            (add_override (list_to_map shorthand) longhand override_cfg)
            overrides [];
  let args := merge_sort pair_le args in
  ok (String.concat (item_sep override_cfg)
        ((λ item, item.1 +:+ kv_sep override_cfg +:+ item.2) <$> args)).

End with_fnmatch.

End ConfigUtils.

(** What an override adds to the list of arguments: its key and value,
    when it is kept. *)
Definition kept_override (fnmatch : string → string → bool)
    (shorthand longhand : gmap string string)
    (override_cfg : ConfigUtils.OverrideName) (arg : string)
  : option (string * string) :=
  match ConfigUtils.add_override fnmatch shorthand longhand override_cfg arg []
  with
  | inr [item] => Some item
  | _ => None
  end.

(** The override holds a ['=']. *)
Definition has_equals (arg : string) : bool :=
  contains_char "=" arg.

(** A name matches a pattern when they are the same: a stand-in for
    [fnmatch] on patterns without wildcards. *)
Definition exact_match (name pattern : string) : bool :=
  String.eqb name pattern.

Definition demo_override_cfg : ConfigUtils.OverrideName :=
  ConfigUtils.mkOverrideName "=" "," false None ["gpus"]%string.

(** ** The patched step methods *)

Module Patch.

(** What a step method returns, and what a step method written in a
    subclass is: a function of the batch and the module. *)
Definition Step : Type :=
  list (list Z) → ExtendedModule.t
  → outcome (ExtendedModule.t * gmap string Step.Value).

(** The [training_step] or [validation_step] of the class: the method of
    the subclass, or a [_wrapped] of [_patch_pl_step] around the method
    the class had before (lines 209-212). *)
Inductive Method : Type :=
  | Subclass (step : Step)
  | Wrapped (stage : Stage) (pl_step_method : Method).

(** The [test_step] of the class: the one of [ExtendedModule], which
    calls [self.validation_step] (lines 430-431), the method of a
    subclass, or a [_wrapped] around the method the class had before. *)
Inductive TestMethod : Type :=
  | Inherited
  | SubclassTest (step : Step)
  | WrappedTest (stage : Stage) (pl_step_method : TestMethod).

Record Class : Type := mkClass {
  training_step : Method;
  validation_step : Method;
  test_step : TestMethod
}.

(** Lines 200-214: the method of the stage is looked up on the class and
    replaced by a wrapper around it. *)
Definition _patch_pl_step (stage : Stage) (cls : Class) : Class :=
  match stage with
  | train =>
      mkClass (Wrapped train (training_step cls)) (validation_step cls)
        (test_step cls)
  | val =>
      mkClass (training_step cls) (Wrapped val (validation_step cls))
        (test_step cls)
  | test =>
      mkClass (training_step cls) (validation_step cls)
        (WrappedTest test (test_step cls))
  end.

(** [__new__] (lines 56-69), as far as the step methods go: every
    instantiation patches the class once more. *)
Definition __new__ (cls : Class) : Class :=
  foldl (λ cls stage, _patch_pl_step stage cls) cls STAGES.

(** Calling a [training_step] or [validation_step]. *)
Fixpoint call (tr : Trainer) (env : Step.Env) (method : Method) : Step :=
  match method with
  | Subclass step => step
  | Wrapped stage pl_step_method =>
      λ batch self,
        '(self, output) ← call tr env pl_step_method batch self;
        Step._after_step tr env stage batch output self
  end.

(** Calling the [test_step] of an instance of [cls]. *)
Fixpoint call_test (tr : Trainer) (env : Step.Env) (cls : Class)
    (method : TestMethod) : Step :=
  match method with
  | Inherited => call tr env (validation_step cls)
  | SubclassTest step => step
  | WrappedTest stage pl_step_method =>
      λ batch self,
        '(self, output) ← call_test tr env cls pl_step_method batch self;
        Step._after_step tr env stage batch output self
  end.

End Patch.

(** A validation step of a subclass that reports a loss and an
    accuracy. *)
Definition demo_validation_step : Patch.Step :=
  λ _ self, returns (self, demo_output).

(** A class with that training and validation step and the inherited
    test step, before any instantiation. *)
Definition demo_class : Patch.Class :=
  Patch.mkClass (Patch.Subclass demo_validation_step)
    (Patch.Subclass demo_validation_step) Patch.Inherited.

(** The output and the meters of a stage are fit for [_after_step]: no
    dictionary entry of the output, and not ['progress_bar'], names a
    meter of the stage, and the output holds a dictionary or nothing
    under ['progress_bar']. *)
Definition step_ready (stage : Stage) (output : gmap string Step.Value)
    (self : ExtendedModule.t) : Prop :=
  no_metered_dict output
    (stage_get stage (ExtendedModule._metrics_meter self)) ∧
  stage_get stage (ExtendedModule._metrics_meter self) !! "progress_bar" = None ∧
  dict_or_absent "progress_bar" output.

(** [k] updates of the epoch meters of a stage with the same scalars and
    weight, one after the other. *)
Fixpoint repeated_update (k : nat) (stage : Stage) (output : gmap string Q)
    (n : Z) (self : ExtendedModule.t) : result ExtendedModule.t :=
  match k with
  | O => ok self
  | S k' =>
      self' ← repeated_update k' stage output n self;
      ExtendedModule._update_epoch_metrics stage output n self'
  end.

(** * Properties *)

Import ExtendedModule.

(** ** Loops *)

Lemma for_each_raises {A S} (body : A → S → result S) (e : exn)
    (l : list A) (s : S) (x : A) :
  Forall (λ y, body y s = ok s ∨ body y s = raise e) l →
  x ∈ l → body x s = raise e →
  for_each body l s = raise e.
Proof.
  induction 1 as [|y l Hy Hl IH]; intros Hin Hx.
  - by apply elem_of_nil in Hin.
  - simpl. apply elem_of_cons in Hin as [<-|Hin].
    + by rewrite Hx.
    + destruct Hy as [Hy|Hy]; rewrite Hy; simpl; [by apply IH|done].
Qed.

Lemma for_each_unchanged {A S} (body : A → S → result S) (l : list A) (s : S) :
  Forall (λ x, body x s = ok s) l → for_each body l s = ok s.
Proof.
  induction 1 as [|x l Hx _ IH]; simpl; [done|]. by rewrite Hx.
Qed.

(** ** State plumbing *)

Lemma stage_get_set {A} (st st' : Stage) (a : A) (d : StageMap A) :
  stage_get st' (stage_set st a d) = if decide (st' = st) then a else stage_get st' d.
Proof. by destruct st, st', d. Qed.

Lemma stage_set_get {A} (st : Stage) (d : StageMap A) :
  stage_set st (stage_get st d) d = d.
Proof. by destruct st, d. Qed.

Lemma set_metrics_meter_id (self : t) :
  set_metrics_meter (_metrics_meter self) self = self.
Proof. by destruct self. Qed.

(** ** The meter loop of [_update_epoch_metrics] *)

Lemma meter_update_pos (mt : AverageMeter.t) (v : Q) (n : Z) :
  0 < n → AverageMeter.update mt v n = ok (meter_add n v mt).
Proof.
  intros Hn. unfold AverageMeter.update.
  destruct (Z.leb_spec n 0); [lia|done].
Qed.

Lemma meter_update_nonpos (mt : AverageMeter.t) (v : Q) (n : Z) :
  n <= 0 → AverageMeter.update mt v n = raise InvalidUpdateError.
Proof.
  intros Hn. unfold AverageMeter.update.
  destruct (Z.leb_spec n 0); [done|lia].
Qed.

Lemma update_meter_unknown (n : Z) (k : string) (v : Q)
    (meters : gmap string AverageMeter.t) :
  meters !! k = None → update_meter n k v meters = ok meters.
Proof. intros Hk. unfold update_meter. by rewrite Hk. Qed.

Lemma update_meter_nonpos (n : Z) (k : string) (v : Q)
    (meters : gmap string AverageMeter.t) :
  n <= 0 →
  update_meter n k v meters = ok meters ∨
  update_meter n k v meters = raise InvalidUpdateError.
Proof.
  intros Hn. unfold update_meter. destruct (meters !! k) as [mt|]; [|by left].
  right. by rewrite meter_update_nonpos.
Qed.

(** With a positive batch size the loop over a duplicate-free item list
    succeeds, and touches exactly the meters whose name is an item key. *)
Lemma update_loop_pos (n : Z) (items : list (string * Q))
    (meters : gmap string AverageMeter.t) :
  0 < n → NoDup items.*1 →
  ∃ meters',
    for_each (λ kv, update_meter n kv.1 kv.2) items meters = ok meters' ∧
    ∀ k, meters' !! k =
         (λ mt, match (list_to_map items : gmap string Q) !! k with
                | Some v => meter_add n v mt
                | None => mt
                end) <$> meters !! k.
Proof.
  intros Hn. revert meters.
  induction items as [|[k0 v0] items IH]; intros meters Hnd.
  - exists meters. split; [done|]. intros k. simpl. rewrite lookup_empty.
    by destruct (meters !! k).
  - apply NoDup_cons in Hnd as [Hk0 Hnd]. simpl.
    assert (∃ m1, update_meter n k0 v0 meters = ok m1 ∧
              ∀ k, m1 !! k = if decide (k = k0)
                             then meter_add n v0 <$> meters !! k0
                             else meters !! k) as (m1 & -> & Hm1).
    { unfold update_meter. destruct (meters !! k0) as [mt|] eqn:E.
      - rewrite meter_update_pos by done. eexists; split; [done|].
        intros k. simpl. case_decide; simplify_map_eq; done.
      - exists meters. split; [done|]. intros k. case_decide; by simplify_eq. }
    simpl. destruct (IH m1 Hnd) as (meters' & -> & Hlk). exists meters'.
    split; [done|]. intros k. rewrite Hlk, Hm1.
    case_decide as Hk.
    + subst k. rewrite lookup_insert_eq.
      rewrite (not_elem_of_list_to_map_1 _ k0) by done.
      by destruct (meters !! k0).
    + by rewrite lookup_insert_ne.
Qed.

Lemma update_items_pos (n : Z) (output : gmap string Q)
    (meters : gmap string AverageMeter.t) :
  0 < n →
  ∃ meters',
    for_items (update_meter n) output meters = ok meters' ∧
    ∀ k, meters' !! k =
         (λ mt, match output !! k with
                | Some v => meter_add n v mt
                | None => mt
                end) <$> meters !! k.
Proof.
  intros Hn. unfold for_items.
  destruct (update_loop_pos n (map_to_list output) meters Hn)
    as (meters' & Hrun & Hlk); [apply NoDup_fst_map_to_list|].
  exists meters'. split; [done|]. intros k. rewrite Hlk.
  by rewrite list_to_map_to_list.
Qed.

Lemma update_epoch_metrics_pos (stage : Stage) (output : gmap string Q)
    (n : Z) (self : t) :
  0 < n →
  ∃ self',
    _update_epoch_metrics stage output n self = ok self' ∧
    ∀ st k,
      stage_get st (_metrics_meter self') !! k =
      if decide (st = stage)
      then (λ mt, match output !! k with
                  | Some v => meter_add n v mt
                  | None => mt
                  end) <$> stage_get st (_metrics_meter self) !! k
      else stage_get st (_metrics_meter self) !! k.
Proof.
  intros Hn. unfold _update_epoch_metrics.
  destruct (update_items_pos n output (stage_get stage (_metrics_meter self)) Hn)
    as (meters' & -> & Hlk).
  eexists. split; [done|]. intros st k. simpl.
  rewrite stage_get_set. case_decide; [subst st; apply Hlk|done].
Qed.

Lemma update_items_unknown (n : Z) (output : gmap string Q)
    (meters : gmap string AverageMeter.t) :
  (∀ k, is_Some (output !! k) → meters !! k = None) →
  for_items (update_meter n) output meters = ok meters.
Proof.
  intros Hunk. unfold for_items. apply for_each_unchanged.
  apply Forall_forall. intros [k v] Hkv. simpl.
  apply elem_of_map_to_list in Hkv. apply update_meter_unknown. eauto.
Qed.

Lemma update_items_nonpos (n : Z) (output : gmap string Q)
    (meters : gmap string AverageMeter.t) (k : string) (v : Q) :
  n <= 0 → output !! k = Some v → is_Some (meters !! k) →
  for_items (update_meter n) output meters = raise InvalidUpdateError.
Proof.
  intros Hn Hout [mt Hmt]. unfold for_items.
  apply for_each_raises with (x := (k, v)).
  - apply Forall_forall. intros [k' v'] _. simpl. by apply update_meter_nonpos.
  - by apply elem_of_map_to_list.
  - simpl. unfold update_meter. rewrite Hmt. by rewrite meter_update_nonpos.
Qed.

(** ** Unknown metric names and bad weights *)

(** C5. For a metric name that is not among the meters of the stage,
    [update(stage, name, value, weight)], that is
    [_update_epoch_metrics(stage, {name: value}, weight)], raises nothing
    and leaves the module as it was, for every weight; so the epoch
    averages of every stage read afterwards are the ones read before. *)
Theorem unknown_metric_update_is_noop (self : t) (stage : Stage)
    (name : string) (value : Q) (weight : Z) :
  stage_get stage (_metrics_meter self) !! name = None →
  ∃ self',
    _update_epoch_metrics stage {[name := value]} weight self = ok self' ∧
    self' = self ∧
    ∀ st, _get_avg_epoch_metrics st self' = _get_avg_epoch_metrics st self.
Proof.
  intros Hname. exists self. split; [|done].
  unfold _update_epoch_metrics. rewrite update_items_unknown.
  - simpl. by rewrite stage_set_get, set_metrics_meter_id.
  - intros k [v Hk]. apply lookup_singleton_Some in Hk as [<- _]. done.
Qed.

(** C7. For a metric name configured for the stage and a weight [w <= 0],
    [update(stage, name, value, w)] raises; the same holds for every call
    of [_update_epoch_metrics] whose output holds that name. *)
Theorem nonpositive_weight_update_fails (self : t) (stage : Stage)
    (output : gmap string Q) (name : string) (value : Q) (w : Z) :
  w <= 0 →
  is_Some (stage_get stage (_metrics_meter self) !! name) →
  output !! name = Some value →
  _update_epoch_metrics stage {[name := value]} w self
    = raise InvalidUpdateError ∧
  _update_epoch_metrics stage output w self = raise InvalidUpdateError.
Proof.
  intros Hw Hname Hout. unfold _update_epoch_metrics. split.
  - rewrite (update_items_nonpos w _ _ name value); try done.
    apply lookup_singleton_eq.
  - by rewrite (update_items_nonpos w _ _ name value).
Qed.

(** ** Epoch averages are weighted means *)

Lemma weighted_sum_snoc (obs : list (Q * Z)) (v : Q) (n : Z) :
  (weighted_sum (obs ++ [(v, n)]) == weighted_sum obs + v * inject_Z n)%Q.
Proof.
  induction obs as [|[v0 n0] obs IH]; simpl.
  - ring.
  - fold (weighted_sum (obs ++ [(v, n)])). fold (weighted_sum obs).
    rewrite IH. ring.
Qed.

Lemma total_weight_snoc (obs : list (Q * Z)) (v : Q) (n : Z) :
  total_weight (obs ++ [(v, n)]) = total_weight obs + n.
Proof.
  induction obs as [|[v0 n0] obs IH]; simpl; [lia|].
  fold (total_weight (obs ++ [(v, n)])). fold (total_weight obs). lia.
Qed.

Lemma total_weight_pos (obs : list (Q * Z)) :
  Forall (λ vw, 0 < vw.2) obs → obs ≠ [] → 0 < total_weight obs.
Proof.
  induction 1 as [|[v n] obs Hn Hobs IH]; intros Hne; [done|]. simpl in *.
  fold (total_weight obs). destruct obs as [|vw obs]; [simpl; lia|].
  assert (0 < total_weight (vw :: obs)) by (by apply IH). lia.
Qed.

Lemma meter_tracks_reset (mt : AverageMeter.t) :
  meter_tracks [] (AverageMeter.reset mt).
Proof. repeat split; simpl; try done. Qed.

Lemma meter_tracks_add (obs : list (Q * Z)) (mt : AverageMeter.t)
    (v : Q) (n : Z) :
  meter_tracks obs mt → meter_tracks (obs ++ [(v, n)]) (meter_add n v mt).
Proof.
  intros (Hsum & Hcount & _). repeat split; simpl.
  - rewrite weighted_sum_snoc, Hsum. reflexivity.
  - rewrite total_weight_snoc. by rewrite Hcount.
Qed.

Lemma meter_tracks_mean (obs : list (Q * Z)) (mt : AverageMeter.t) :
  meter_tracks obs mt → obs ≠ [] →
  (AverageMeter.value mt == weighted_mean obs)%Q.
Proof.
  intros (Hsum & Hcount & Hval) Hne. rewrite (Hval Hne).
  unfold weighted_mean. by rewrite Hsum, Hcount.
Qed.

Lemma run_updates_tracks (calls : list UpdateCall) :
  Forall (λ c, 0 < call_batch_size c) calls →
  ∀ (self : t) (stage : Stage) (m : string) (pre : list (Q * Z))
    (mt : AverageMeter.t),
    stage_get stage (_metrics_meter self) !! m = Some mt →
    meter_tracks pre mt →
    ∃ self' mt',
      run_updates calls self = ok self' ∧
      stage_get stage (_metrics_meter self') !! m = Some mt' ∧
      meter_tracks (pre ++ supplied stage m calls) mt'.
Proof.
  induction 1 as [|c calls Hc _ IH]; intros self stage m pre mt Hmt Htr.
  - exists self, mt. simpl. by rewrite app_nil_r.
  - destruct (update_epoch_metrics_pos (call_stage c) (call_output c)
                (call_batch_size c) self Hc) as (self1 & Hrun & Hlk).
    specialize (Hlk stage m). rewrite Hmt in Hlk. simpl in Hlk.
    unfold run_updates. simpl. rewrite Hrun. simpl.
    fold (run_updates calls self1).
    destruct (decide (call_stage c = stage)) as [Hst|Hst].
    + rewrite decide_True in Hlk by done.
      destruct (call_output c !! m) as [v|] eqn:Hout; simpl.
      * destruct (IH self1 stage m (pre ++ [(v, call_batch_size c)]) _ Hlk)
          as (self' & mt' & Hrun' & Hmt' & Htr').
        { by apply meter_tracks_add. }
        exists self', mt'. by rewrite <- app_assoc in Htr'.
      * by apply (IH self1 stage m pre mt).
    + rewrite decide_False in Hlk by done.
      by apply (IH self1 stage m pre mt).
Qed.

Lemma reset_epoch_metrics_lookup (r : option Stage) (self : t)
    (stage : Stage) (m : string) :
  r = None ∨ r = Some stage →
  stage_get stage (_metrics_meter (_reset_epoch_metrics r self)) !! m =
  AverageMeter.reset <$> stage_get stage (_metrics_meter self) !! m.
Proof.
  intros [->| ->]; destruct stage, self as [? [] ? ? ? ? ?]; simpl;
    by rewrite lookup_fmap.
Qed.

Lemma supplied_pos (stage : Stage) (m : string) (calls : list UpdateCall) :
  Forall (λ c, 0 < call_batch_size c) calls →
  Forall (λ vw, 0 < vw.2) (supplied stage m calls).
Proof.
  induction 1 as [|c calls Hc _ IH]; [constructor|].
  unfold supplied. simpl. fold (supplied stage m calls).
  case_decide; [|done]. destruct (call_output c !! m); simpl; [|done].
  by constructor.
Qed.

(** C1. Reset the meters of a stage and fold in any sequence of updates
    whose weights are positive.  No update raises, and the epoch average
    of every metric configured for the stage is, as soon as a value was
    supplied for it, the weighted arithmetic mean of the supplied values:
    their weighted sum divided by their total weight, which is positive.
    Values are rationals here, so the mean is exact. *)
Theorem epoch_average_is_weighted_mean (self : t) (r : option Stage)
    (calls : list UpdateCall) (stage : Stage) (m : string) :
  Forall (λ c, 0 < call_batch_size c) calls →
  r = None ∨ r = Some stage →
  is_Some (stage_get stage (_metrics_meter self) !! m) →
  ∃ self' avg,
    run_updates calls (_reset_epoch_metrics r self) = ok self' ∧
    _get_avg_epoch_metrics stage self' !! m = Some avg ∧
    (supplied stage m calls ≠ [] →
     0 < total_weight (supplied stage m calls) ∧
     (avg == weighted_mean (supplied stage m calls))%Q).
Proof.
  intros Hpos Hr [mt Hmt].
  destruct (run_updates_tracks calls Hpos (_reset_epoch_metrics r self)
              stage m [] (AverageMeter.reset mt))
    as (self' & mt' & Hrun & Hmt' & Htr).
  { rewrite reset_epoch_metrics_lookup by done. by rewrite Hmt. }
  { apply meter_tracks_reset. }
  exists self', (AverageMeter.value mt'). split; [done|]. split.
  - unfold _get_avg_epoch_metrics. by rewrite lookup_fmap, Hmt'.
  - intros Hne. split.
    + apply total_weight_pos; [by apply supplied_pos|done].
    + by apply meter_tracks_mean.
Qed.

Example init_demo : __init__ (HDictConfig demo_conf) = ok demo_module.
Proof. vm_compute. reflexivity. Qed.

Lemma epoch_average_is_weighted_mean_witness :
  Forall (λ c, 0 < call_batch_size c) demo_calls ∧
  ∃ self' avg,
    run_updates demo_calls (_reset_epoch_metrics None demo_module) = ok self' ∧
    _get_avg_epoch_metrics train self' !! "loss" = Some avg ∧
    (supplied train "loss" demo_calls ≠ [] →
     0 < total_weight (supplied train "loss" demo_calls) ∧
     (avg == weighted_mean (supplied train "loss" demo_calls))%Q).
Proof.
  assert (Forall (λ c, 0 < call_batch_size c) demo_calls) as Hpos
    by (repeat constructor).
  split; [exact Hpos|].
  apply (epoch_average_is_weighted_mean demo_module None demo_calls train "loss").
  - exact Hpos.
  - left. reflexivity.
  - exists AverageMeter.new. vm_compute. reflexivity.
Defined.

Example epoch_average_demo :
  (λ avgs, avgs !! "loss") <$>
    ((λ self, _get_avg_epoch_metrics train self) <$>
       run_updates demo_calls (_reset_epoch_metrics None demo_module))
  = inr (Some (8 # 12)%Q).
Proof. vm_compute. reflexivity. Qed.

Lemma unknown_metric_update_is_noop_witness :
  stage_get train (_metrics_meter demo_module) !! "unknown_metric" = None ∧
  ∃ self',
    _update_epoch_metrics train {["unknown_metric" := 1%Q]} 1 demo_module
      = ok self' ∧
    self' = demo_module ∧
    ∀ st, _get_avg_epoch_metrics st self' = _get_avg_epoch_metrics st demo_module.
Proof.
  split; [vm_compute; reflexivity|].
  apply (unknown_metric_update_is_noop demo_module train "unknown_metric" 1%Q 1).
  vm_compute. reflexivity.
Defined.

Lemma nonpositive_weight_update_fails_witness :
  0 <= 0 ∧
  _update_epoch_metrics train {["loss" := 1%Q]} 0 demo_module
    = raise InvalidUpdateError ∧
  _update_epoch_metrics train {["lr" := 3%Q; "loss" := 1%Q]} 0 demo_module
    = raise InvalidUpdateError.
Proof.
  split; [lia|].
  apply (nonpositive_weight_update_fails demo_module train
           {["lr" := 3%Q; "loss" := 1%Q]} "loss" 1%Q 0).
  - lia.
  - exists AverageMeter.new. vm_compute. reflexivity.
  - vm_compute. reflexivity.
Defined.

(** ** Reset *)

(** C9. Right after [reset(stage)] (also the reset of all stages, and the
    one [on_epoch_start] performs) the epoch averages of the stage list
    every configured meter with the value zero, whatever was accumulated
    before. *)
Theorem reset_then_average_is_zero (self : t) (r : option Stage)
    (stage : Stage) :
  r = None ∨ r = Some stage →
  _get_avg_epoch_metrics stage (_reset_epoch_metrics r self)
    = (λ _, 0%Q) <$> stage_get stage (_metrics_meter self) ∧
  _get_avg_epoch_metrics stage (on_epoch_start self)
    = (λ _, 0%Q) <$> stage_get stage (_metrics_meter self).
Proof.
  intros Hr.
  assert (∀ r', r' = None ∨ r' = Some stage →
            _get_avg_epoch_metrics stage (_reset_epoch_metrics r' self)
            = (λ _, 0%Q) <$> stage_get stage (_metrics_meter self)) as Hreset.
  { intros r' Hr'. apply map_eq. intros m. unfold _get_avg_epoch_metrics.
    rewrite !lookup_fmap, reset_epoch_metrics_lookup by done.
    by destruct (stage_get stage (_metrics_meter self) !! m). }
  split; [by apply Hreset|].
  rewrite <- (Hreset None) by (by left). by destruct stage.
Qed.

Example demo_trained_average :
  _get_avg_epoch_metrics val demo_trained !! "loss" = Some (56 # 8)%Q.
Proof. vm_compute. reflexivity. Qed.

Lemma reset_then_average_is_zero_witness :
  (Some val = None ∨ Some val = Some val) ∧
  _get_avg_epoch_metrics val (_reset_epoch_metrics (Some val) demo_trained)
    = (λ _, 0%Q) <$> stage_get val (_metrics_meter demo_trained) ∧
  _get_avg_epoch_metrics val (on_epoch_start demo_trained)
    = (λ _, 0%Q) <$> stage_get val (_metrics_meter demo_trained).
Proof.
  split; [by right|].
  apply (reset_then_average_is_zero demo_trained (Some val) val). by right.
Defined.

(** ** Best values *)

Lemma best_test_spec (direction : string) (v old : Q) :
  direction = "max" ∨ direction = "min" →
  (String.eqb direction "max" && Qle_bool old v)
  || (negb (String.eqb direction "max") && Qle_bool v old) = true
  ↔ at_least_as_good direction v old.
Proof.
  unfold at_least_as_good. intros [-> | ->]; simpl.
  - rewrite orb_false_r, Qle_bool_iff. split; [by left|].
    by intros [[_ ?]|[? _]].
  - rewrite Qle_bool_iff. split; [by right|]. by intros [[? _]|[_ ?]].
Qed.

Lemma strictly_worse_not_good (direction : string) (v old : Q) :
  strictly_worse direction v old → ¬ at_least_as_good direction v old.
Proof.
  intros [[-> Hlt]|[-> Hlt]] [[? Hle]|[? Hle]]; try done;
    by apply Qlt_not_le in Hlt.
Qed.

Lemma tie_is_good (direction : string) (v old : Q) :
  direction = "max" ∨ direction = "min" → (v == old)%Q →
  at_least_as_good direction v old.
Proof.
  intros [-> | ->] Heq; [left|right]; (split; [done|]); rewrite Heq;
    apply Qle_refl.
Qed.

(** C2. For a tracked metric, [update_best] accepts the first
    observation; a later observation replaces the stored value and epoch
    exactly when it is at least as good under the configured direction
    ([>=] for [max], [<=] for [min]) and otherwise changes nothing.  So a
    tie keeps the value and moves the recorded epoch to the current one,
    and a strictly worse value leaves the module as it was. *)
Theorem update_best_policy (tr : Trainer) (self : t) (m direction : string)
    (v : Q) :
  _best_metrics_spec self !! m = Some direction →
  direction = "max" ∨ direction = "min" →
  let accepted :=
    set_best_metrics_values
      (<[m := mkBestInfo v (current_epoch tr)]> (_best_metrics_values self))
      self in
  (_best_metrics_values self !! m = None →
   _update_best_metrics tr m v self = ok accepted) ∧
  (∀ info, _best_metrics_values self !! m = Some info →
     (at_least_as_good direction v (best_value info) →
      _update_best_metrics tr m v self = ok accepted) ∧
     (¬ at_least_as_good direction v (best_value info) →
      _update_best_metrics tr m v self = ok self) ∧
     ((v == best_value info)%Q →
      ∃ self' info',
        _update_best_metrics tr m v self = ok self' ∧
        _best_metrics_values self' !! m = Some info' ∧
        (best_value info' == best_value info)%Q ∧
        best_epoch info' = current_epoch tr) ∧
     (strictly_worse direction v (best_value info) →
      _update_best_metrics tr m v self = ok self)).
Proof.
  intros Hspec Hdir accepted.
  assert (∀ info, _best_metrics_values self !! m = Some info →
            (at_least_as_good direction v (best_value info) →
             _update_best_metrics tr m v self = ok accepted) ∧
            (¬ at_least_as_good direction v (best_value info) →
             _update_best_metrics tr m v self = ok self)) as Hlater.
  { intros info Hinfo. unfold _update_best_metrics. rewrite Hspec, Hinfo.
    pose proof (best_test_spec direction v (best_value info) Hdir) as Htest.
    destruct ((String.eqb direction "max" && Qle_bool (best_value info) v)
              || (negb (String.eqb direction "max")
                  && Qle_bool v (best_value info))).
    - split; [done|]. intros Hbad. destruct Hbad. by apply Htest.
    - split; [|done]. intros Hgood. apply Htest in Hgood. done. }
  split.
  - intros Hnone. unfold _update_best_metrics. by rewrite Hspec, Hnone.
  - intros info Hinfo. destruct (Hlater info Hinfo) as [Hgood Hbad].
    repeat split; [done|done|..].
    + intros Htie. exists accepted, (mkBestInfo v (current_epoch tr)).
      split; [by apply Hgood, tie_is_good|].
      split; [apply lookup_insert_eq|]. by split.
    + intros Hworse. by apply Hbad, strictly_worse_not_good.
Qed.

(** C6. [update_best] on a metric name that the best-metric specification
    does not list trips the assertion at its head. *)
Theorem update_best_unknown_fails (tr : Trainer) (self : t) (m : string)
    (v : Q) :
  _best_metrics_spec self !! m = None →
  _update_best_metrics tr m v self = raise AssertionError.
Proof. intros Hspec. unfold _update_best_metrics. by rewrite Hspec. Qed.

Lemma update_best_unknown_fails_witness :
  _best_metrics_spec demo_module !! "missing/metric" = None ∧
  _update_best_metrics (demo_trainer 1) "missing/metric" 1%Q demo_module
    = raise AssertionError.
Proof.
  split; [vm_compute; reflexivity|].
  apply (update_best_unknown_fails (demo_trainer 1) demo_module).
  vm_compute. reflexivity.
Defined.

Lemma update_best_policy_witness :
  _best_metrics_spec demo_best !! "val/loss" = Some "min"%string ∧
  ("min" = "max" ∨ "min" = "min")%string ∧
  _best_metrics_values demo_best !! "val/loss" = Some (mkBestInfo (1 # 2) 1) ∧
  ∃ self' info',
    _update_best_metrics (demo_trainer 2) "val/loss" (2 # 4) demo_best
      = ok self' ∧
    _best_metrics_values self' !! "val/loss" = Some info' ∧
    (best_value info' == 1 # 2)%Q ∧
    best_epoch info' = 2.
Proof.
  assert (_best_metrics_spec demo_best !! "val/loss" = Some "min"%string)
    as Hspec by (vm_compute; reflexivity).
  assert (_best_metrics_values demo_best !! "val/loss"
          = Some (mkBestInfo (1 # 2) 1)) as Hbest by (vm_compute; reflexivity).
  split; [exact Hspec|]. split; [right; reflexivity|]. split; [exact Hbest|].
  destruct (update_best_policy (demo_trainer 2) demo_best "val/loss" "min"
              (2 # 4) Hspec (or_intror eq_refl)) as [_ Hlater].
  destruct (Hlater _ Hbest) as (_ & _ & Htie & _).
  apply Htie. reflexivity.
Defined.

(** The two best-value scenarios of the specification. *)
Example best_worse_value_ignored :
  _update_best_metrics (demo_trainer 2) "val/acc" (8 # 1) demo_best
  = ok demo_best.
Proof. vm_compute. reflexivity. Qed.

Example best_tie_moves_epoch :
  (λ self, _best_metrics_values self !! "val/loss") <$>
    _update_best_metrics (demo_trainer 2) "val/loss" (1 # 2) demo_best
  = ok (Some (mkBestInfo (1 # 2) 2)).
Proof. vm_compute. reflexivity. Qed.

(** ** Construction *)

Lemma check_best_entry_cases (name value : string) :
  check_best_entry name value tt = ok tt ∨
  check_best_entry name value tt = raise AssertionError.
Proof.
  unfold check_best_entry. destruct (contains_char "/" name); simpl; [|by right].
  case_bool_decide; simpl; [by left|by right].
Qed.

Lemma check_best_entry_malformed (name value : string) :
  ¬ well_formed_entry name value →
  check_best_entry name value tt = raise AssertionError.
Proof.
  intros Hbad. unfold check_best_entry.
  destruct (contains_char "/" name) eqn:Hslash; simpl; [|done].
  case_bool_decide as Hin; simpl; [|done].
  destruct Hbad. split; [done|].
  apply elem_of_cons in Hin as [->|Hin]; [by left|].
  apply list_elem_of_singleton in Hin as ->. by right.
Qed.

Lemma check_best_metrics_malformed (best : gmap string string)
    (name direction : string) :
  best !! name = Some direction → ¬ well_formed_entry name direction →
  for_items check_best_entry best tt = raise AssertionError.
Proof.
  intros Hentry Hbad. unfold for_items.
  apply for_each_raises with (x := (name, direction)).
  - apply Forall_forall. intros [k d] _. apply check_best_entry_cases.
  - by apply elem_of_map_to_list.
  - by apply check_best_entry_malformed.
Qed.

(** C8. When some entry of [best_metrics] has a name without ['/'] or a
    direction other than ['min'] and ['max'], [__init__] raises: no module
    is built.  With the required hyper-parameters present the exception
    is the failed assertion on that specification. *)
Theorem malformed_best_metrics_rejected (hparams : HParams) (conf : Conf)
    (best : gmap string string) (name direction : string) :
  hparams = HDictConfig conf ∨ hparams = HNamespace conf →
  conf_best_metrics conf = Some best →
  best !! name = Some direction →
  contains_char "/" name = false ∨ (direction ≠ "min" ∧ direction ≠ "max") →
  (∃ e, __init__ hparams = raise e) ∧
  (is_Some (conf_train_metrics conf) → is_Some (conf_val_metrics conf) →
   __init__ hparams = raise AssertionError).
Proof.
  intros Hh Hbest Hentry Hbad.
  assert (¬ well_formed_entry name direction) as Hnwf.
  { intros [Hslash Hdir]. destruct Hbad as [Hbad|[Hmin Hmax]]; [congruence|].
    by destruct Hdir. }
  pose proof (check_best_metrics_malformed best name direction Hentry Hnwf)
    as Hloop.
  assert (__init__ hparams = __init__ (HDictConfig conf)) as ->
    by (by destruct Hh as [-> | ->]).
  destruct conf as [tm vm sm bm dbg]. simpl in Hbest. subst bm.
  unfold __init__. simpl. split.
  - destruct tm as [tm|]; simpl; [|by eexists].
    destruct vm as [vm|]; simpl; [|by eexists].
    destruct sm, dbg; simpl; rewrite Hloop; by eexists.
  - intros [tm' ->] [vm' ->]. simpl.
    destruct sm, dbg; simpl; by rewrite Hloop.
Qed.

Lemma malformed_best_metrics_rejected_witness :
  (contains_char "/" "accuracy" = false ∨
   ("max" ≠ "min" ∧ "max" ≠ "max")%string) ∧
  (∃ e, __init__ (HDictConfig
                    (mkConf (Some ["loss"]%string) (Some ["loss"]%string) None
                       (Some {["accuracy" := "max"]}%string) None))
        = raise e).
Proof.
  split; [left; reflexivity|].
  eapply (malformed_best_metrics_rejected _ _ {["accuracy" := "max"]}%string
            "accuracy" "max"%string).
  - left. reflexivity.
  - reflexivity.
  - vm_compute. reflexivity.
  - left. reflexivity.
Defined.

Example bad_direction_rejected :
  __init__ (HDictConfig
              (mkConf (Some ["loss"]%string) (Some ["loss"]%string) None
                 (Some {["val/loss" := "minimum"]}%string) None))
  = raise AssertionError.
Proof. vm_compute. reflexivity. Qed.

(** A module that [__init__] built holds only well-formed entries in its
    best-metric specification. *)
Lemma init_best_metrics_well_formed (hparams : HParams) (self : t) :
  __init__ hparams = ok self →
  ∀ name direction,
    _best_metrics_spec self !! name = Some direction →
    well_formed_entry name direction.
Proof.
  intros Hinit name direction Hentry.
  assert (¬ ¬ well_formed_entry name direction) as Hnn.
  { intros Hbad. revert Hinit. unfold __init__.
    destruct hparams as [conf|conf|]; simpl; [| |done];
      (destruct (_check_hparams (conf_train_metrics conf) None);
         simpl; [done|];
       destruct (_check_hparams (conf_val_metrics conf) None) as [|vm];
         simpl; [done|];
       destruct (_check_hparams (conf_test_metrics conf) (Some vm));
         simpl; [done|];
       destruct (_check_hparams (conf_best_metrics conf) (Some ∅)) as [|bm];
         simpl; [done|];
       destruct (_check_hparams (conf_debug conf) (Some false));
         simpl; [done|];
       destruct (for_items check_best_entry bm tt) eqn:Hloop;
         simpl; [done|];
       intros [= <-]; simpl in Hentry;
       by rewrite (check_best_metrics_malformed bm name direction) in Hloop). }
  unfold well_formed_entry in *.
  destruct (contains_char "/" name); [|by destruct Hnn; intros []].
  destruct (decide (direction = "min")) as [|Hmin]; [by auto|].
  destruct (decide (direction = "max")) as [|Hmax]; [by auto|].
  destruct Hnn. by intros [_ []].
Qed.

(** ** The epoch history *)

Lemma record_epoch_append (e : Z) (stage : Stage) (values : gmap string Q)
    (history : list EpochInfo) :
  (∀ latest, last history = Some latest → epoch latest ≠ e) →
  record_epoch e stage values history
  = history ++ [update_stage stage values (new_epoch_info e)].
Proof.
  intros Hlast. unfold record_epoch.
  destruct (last history) as [latest|]; [|done].
  rewrite bool_decide_eq_true_2; [done|]. by apply Hlast.
Qed.

Lemma record_epoch_merge (e : Z) (stage : Stage) (values : gmap string Q)
    (earlier : list EpochInfo) (latest : EpochInfo) :
  epoch latest = e →
  record_epoch e stage values (earlier ++ [latest])
  = earlier ++ [update_stage stage values latest].
Proof.
  intros He. unfold record_epoch. rewrite last_snoc.
  rewrite bool_decide_eq_false_2 by (by intros []).
  rewrite length_app. simpl.
  replace (length earlier + 1 - 1)%nat with (length earlier + 0)%nat by lia.
  by rewrite alter_app_r.
Qed.

Lemma update_stage_fresh (e : Z) (stage : Stage) (values : gmap string Q) :
  update_stage stage values (new_epoch_info e)
  = mkEpochInfo e (stage_set stage values (mkStageMap ∅ ∅ ∅)).
Proof.
  unfold update_stage, new_epoch_info, dict_update. simpl. f_equal.
  destruct stage; simpl; by rewrite (right_id_L ∅ (∪)).
Qed.

Lemma stage_get_update_stage (st stage : Stage) (values : gmap string Q)
    (info : EpochInfo) :
  stage_get st (stage_metrics (update_stage stage values info))
  = if decide (st = stage)
    then values ∪ stage_get stage (stage_metrics info)
    else stage_get st (stage_metrics info).
Proof. unfold update_stage. simpl. by rewrite stage_get_set. Qed.

Lemma filter_none {A} (P : A → Prop) `{∀ x, Decision (P x)} (l : list A) :
  (∀ x, x ∈ l → ¬ P x) → filter P l = [].
Proof.
  induction l as [|x l IH]; intros Hl; [done|].
  rewrite filter_cons_False by (apply Hl; left).
  apply IH. intros y Hy. apply Hl. by right.
Qed.

(** C3. [record_epoch(e, stage, values)] on a history whose latest record
    carries the index [e] updates that record in place: the values are
    merged into its mapping for the stage, each of them overwriting what
    was stored under its name (so the mapping becomes [values] itself when
    it held no other names), the other stages and all earlier records stay
    and the history keeps its length.  On an empty history, or one whose
    latest record carries another index, a record for [e] holding just
    these values is appended.  Hence recording a second, different stage
    for the same index right after the first never adds a record, the
    latest record then holds the values of both stages, and when no record
    carried the index before, the history has exactly one record for it. *)
Theorem record_epoch_merges_or_appends (e : Z) (stage : Stage)
    (values : gmap string Q) (history : list EpochInfo) :
  (∀ earlier latest,
     history = earlier ++ [latest] → epoch latest = e →
     let merged := values ∪ stage_get stage (stage_metrics latest) in
     record_epoch e stage values history
     = earlier ++ [mkEpochInfo e (stage_set stage merged (stage_metrics latest))] ∧
     length (record_epoch e stage values history) = length history ∧
     values ⊆ merged ∧
     (dom (stage_get stage (stage_metrics latest)) ⊆ dom values →
      merged = values)) ∧
  ((∀ latest, last history = Some latest → epoch latest ≠ e) →
   record_epoch e stage values history
   = history ++ [mkEpochInfo e (stage_set stage values (mkStageMap ∅ ∅ ∅))]) ∧
  (∀ stage2 values2,
     stage ≠ stage2 →
     let once := record_epoch e stage values history in
     let twice := record_epoch e stage2 values2 once in
     length twice = length once ∧
     ∃ earlier both,
       twice = earlier ++ [both] ∧ epoch both = e ∧
       values ⊆ stage_get stage (stage_metrics both) ∧
       values2 ⊆ stage_get stage2 (stage_metrics both) ∧
       (e ∉ epochs history →
        earlier = history ∧
        stage_get stage (stage_metrics both) = values ∧
        stage_get stage2 (stage_metrics both) = values2 ∧
        filter (λ info, epoch info = e) twice = [both])).
Proof.
  split; [|split].
  - intros earlier latest -> He merged.
    rewrite record_epoch_merge by done. unfold update_stage, dict_update.
    rewrite He. fold merged. split; [done|]. split.
    { by rewrite !length_app. }
    split; [apply map_union_subseteq_l|].
    intros Hdom. apply map_eq. intros k. unfold merged.
    rewrite lookup_union. destruct (values !! k) as [v|] eqn:Hv.
    + by destruct (stage_get stage (stage_metrics latest) !! k).
    + apply not_elem_of_dom in Hv.
      assert (k ∉ dom (stage_get stage (stage_metrics latest))) as Hk
        by set_solver.
      apply not_elem_of_dom in Hk. by rewrite Hk.
  - intros Hlast. rewrite record_epoch_append by done.
    by rewrite update_stage_fresh.
  - intros stage2 values2 Hne once twice.
    assert (∃ earlier first,
              once = earlier ++ [first] ∧ epoch first = e ∧
              values ⊆ stage_get stage (stage_metrics first) ∧
              (e ∉ epochs history →
               earlier = history ∧
               first = mkEpochInfo e
                         (stage_set stage values (mkStageMap ∅ ∅ ∅))))
      as (earlier & first & Honce & Hfirst & Hsub & Hfresh).
    { unfold once. destruct (last history) as [latest|] eqn:Hlast.
      - apply last_Some in Hlast as [earlier ->].
        destruct (decide (epoch latest = e)) as [He|He].
        + rewrite record_epoch_merge by done.
          exists earlier, (update_stage stage values latest).
          split; [done|]. split; [done|]. split.
          * rewrite stage_get_update_stage, decide_True by done.
            apply map_union_subseteq_l.
          * intros Hfresh. destruct Hfresh. unfold epochs.
            rewrite fmap_app. simpl. rewrite He. set_solver.
        + rewrite record_epoch_append, update_stage_fresh.
          * eexists _, _. split; [done|]. split; [done|]. split; [|done].
            simpl. by rewrite stage_get_set, decide_True.
          * intros latest'. rewrite last_snoc. by intros [= <-].
      - apply last_None in Hlast as ->.
        rewrite record_epoch_append, update_stage_fresh by done.
        eexists _, _. split; [done|]. split; [done|]. split; [|done].
        simpl. by rewrite stage_get_set, decide_True. }
    unfold twice. rewrite Honce, record_epoch_merge by done. split.
    { by rewrite !length_app. }
    exists earlier, (update_stage stage2 values2 first).
    split; [done|]. split; [done|]. split.
    { by rewrite stage_get_update_stage, decide_False. }
    split.
    { rewrite stage_get_update_stage, decide_True by done.
      apply map_union_subseteq_l. }
    intros Hnew. destruct (Hfresh Hnew) as [-> ->].
    split; [done|].
    rewrite !stage_get_update_stage, decide_False, decide_True by done.
    simpl. rewrite !stage_get_set, decide_True by done.
    rewrite decide_False by done.
    split; [done|]. split.
    { destruct stage2; simpl; by rewrite (right_id_L ∅ (∪)). }
    rewrite filter_app, filter_none.
    + by rewrite filter_cons_True.
    + intros x Hx Hex. apply Hnew. unfold epochs. rewrite <- Hex.
      by apply list_elem_of_fmap_2.
Qed.

Lemma record_epoch_merges_or_appends_witness :
  train ≠ val ∧ (3 ∉ epochs []) ∧
  ∃ both,
    record_epoch 3 val {["loss" := 1 # 3]}%Q
      (record_epoch 3 train {["loss" := 1 # 2]}%Q []) = [both] ∧
    epoch both = 3 ∧
    stage_get train (stage_metrics both) = {["loss" := 1 # 2]}%Q ∧
    stage_get val (stage_metrics both) = {["loss" := 1 # 3]}%Q.
Proof.
  assert (train ≠ val) as Hne by discriminate.
  assert (3 ∉ epochs []) as Hfresh by (intros Hin; inversion Hin).
  split; [exact Hne|]. split; [exact Hfresh|].
  destruct (record_epoch_merges_or_appends 3 train {["loss" := 1 # 2]}%Q [])
    as (_ & _ & Htwo).
  destruct (Htwo val {["loss" := 1 # 3]}%Q Hne)
    as (_ & earlier & both & Htwice & Hepoch & _ & _ & Hnew).
  destruct (Hnew Hfresh) as (Hearlier & Htrain & Hval & _).
  exists both. rewrite Htwice, Hearlier. repeat split; assumption.
Defined.

Example record_epoch_same_epoch :
  epochs (run_records demo_run []) = [3; 4].
Proof. vm_compute. reflexivity. Qed.

Lemma record_epoch_epochs (e : Z) (stage : Stage) (values : gmap string Q)
    (history : list EpochInfo) :
  epochs (record_epoch e stage values history)
  = if decide (last (epochs history) = Some e) then epochs history
    else epochs history ++ [e].
Proof.
  assert (last (epochs history) = epoch <$> last history) as ->
    by apply fmap_last.
  destruct (last history) as [latest|] eqn:Hlast; simpl.
  - apply last_Some in Hlast as [earlier ->].
    destruct (decide (epoch latest = e)) as [He|He].
    + rewrite record_epoch_merge, decide_True by (by f_equal).
      unfold epochs. by rewrite !fmap_app.
    + rewrite record_epoch_append, decide_False.
      * unfold epochs. by rewrite !fmap_app.
      * by intros [= ?].
      * intros latest'. rewrite last_snoc. by intros [= <-].
  - apply last_None in Hlast as ->. done.
Qed.

Lemma strictly_increasing_snoc (l : list Z) (e : Z) :
  strictly_increasing l → (∀ x, last l = Some x → x < e) →
  strictly_increasing (l ++ [e]).
Proof.
  induction l as [|x l IH]; intros Hl Hlast; [done|].
  destruct l as [|y l].
  - simpl. split; [|done]. by apply Hlast.
  - destruct Hl as [Hxy Hl]. split; [done|]. apply IH; [done|].
    intros z Hz. apply Hlast. by rewrite last_cons_cons.
Qed.

Lemma strictly_increasing_head (x : Z) (l : list Z) :
  strictly_increasing (x :: l) → ∀ y, y ∈ l → x < y.
Proof.
  revert x. induction l as [|z l IH]; intros x [Hxz Hl] y Hy.
  - by apply elem_of_nil in Hy.
  - apply elem_of_cons in Hy as [->|Hy]; [done|].
    assert (z < y) by (by apply IH). lia.
Qed.

Lemma strictly_increasing_NoDup (l : list Z) :
  strictly_increasing l → NoDup l.
Proof.
  induction l as [|x l IH]; intros Hl; [constructor|].
  constructor.
  - intros Hx. apply (strictly_increasing_head x l Hl) in Hx. lia.
  - apply IH. by destruct Hl.
Qed.

Lemma run_records_increasing (calls : list RecordCall) :
  ∀ history : list EpochInfo,
    strictly_increasing (epochs history) →
    non_decreasing (rec_epoch <$> calls) →
    (∀ x c, last (epochs history) = Some x → head calls = Some c →
            x <= rec_epoch c) →
    strictly_increasing (epochs (run_records calls history)).
Proof.
  induction calls as [|c calls IH]; intros history Hinc Hcalls Hfirst; [done|].
  simpl. apply IH.
  - rewrite record_epoch_epochs. case_decide as Hlast; [done|].
    apply strictly_increasing_snoc; [done|]. intros x Hx.
    assert (x <= rec_epoch c) by (by apply Hfirst).
    assert (x ≠ rec_epoch c) by (intros ->; done). lia.
  - by destruct Hcalls.
  - intros x c' Hx Hc'. destruct calls as [|c'' calls]; [done|].
    simpl in Hc'. injection Hc' as ->. destruct Hcalls as [Hle _].
    rewrite record_epoch_epochs in Hx. case_decide as Hlast.
    + rewrite Hlast in Hx. injection Hx as <-. done.
    + rewrite last_snoc in Hx. injection Hx as <-. done.
Qed.

(** C4, as the code has it.  The history is compared with its latest
    record only, so its indices grow strictly as long as the indices
    handed to [record_epoch] never go down: from a history with strictly
    growing indices, none of them above the first index recorded, such a
    sequence of updates gives a history with strictly growing indices, in
    which no two records share one. *)
Theorem epoch_history_increasing (history : list EpochInfo)
    (calls : list RecordCall) :
  strictly_increasing (epochs history) →
  non_decreasing (rec_epoch <$> calls) →
  (∀ x c, last (epochs history) = Some x → head calls = Some c →
          x <= rec_epoch c) →
  strictly_increasing (epochs (run_records calls history)) ∧
  NoDup (epochs (run_records calls history)).
Proof.
  intros Hinc Hcalls Hfirst.
  assert (strictly_increasing (epochs (run_records calls history)))
    by (by apply run_records_increasing).
  split; [done|]. by apply strictly_increasing_NoDup.
Qed.

Lemma epoch_history_increasing_witness :
  strictly_increasing (epochs []) ∧
  non_decreasing (rec_epoch <$> demo_run) ∧
  strictly_increasing (epochs (run_records demo_run [])) ∧
  NoDup (epochs (run_records demo_run [])).
Proof.
  assert (non_decreasing (rec_epoch <$> demo_run)) as Hrun
    by (simpl; repeat split; lia).
  split; [exact I|]. split; [exact Hrun|].
  apply (epoch_history_increasing [] demo_run I Hrun).
  intros x c Hx. discriminate Hx.
Defined.

(** C4, as the specification words it, fails: coming back to an earlier
    index after a later one was recorded appends a second record for
    it. *)
Lemma epoch_history_revisit :
  epochs (run_records demo_revisit []) = [3; 4; 3] ∧
  ¬ strictly_increasing (epochs (run_records demo_revisit [])) ∧
  ¬ NoDup (epochs (run_records demo_revisit [])).
Proof.
  assert (epochs (run_records demo_revisit []) = [3; 4; 3]) as ->
    by (vm_compute; reflexivity).
  split; [done|]. split.
  - intros (_ & Hlt & _). lia.
  - intros Hnd. apply NoDup_cons in Hnd as [Hin _]. apply Hin. set_solver.
Qed.

(** ** Before training starts *)

Lemma init_not_started (hparams : HParams) (self : t) :
  __init__ hparams = ok self → _is_training_started self = false.
Proof.
  unfold __init__.
  destruct hparams as [conf|conf|]; simpl; [| |done];
    (destruct (_check_hparams (conf_train_metrics conf) None); simpl; [done|];
     destruct (_check_hparams (conf_val_metrics conf) None) as [|vm];
       simpl; [done|];
     destruct (_check_hparams (conf_test_metrics conf) (Some vm));
       simpl; [done|];
     destruct (_check_hparams (conf_best_metrics conf) (Some ∅)) as [|bm];
       simpl; [done|];
     destruct (_check_hparams (conf_debug conf) (Some false));
       simpl; [done|];
     destruct (for_items check_best_entry bm tt); simpl; [done|];
     by intros [= <-]).
Qed.

Lemma update_epoch_metrics_started (stage : Stage) (output : gmap string Q)
    (n : Z) (self self' : t) :
  _update_epoch_metrics stage output n self = ok self' →
  _is_training_started self' = _is_training_started self.
Proof.
  unfold _update_epoch_metrics.
  destruct (for_items _ _ _); simpl; [done|]. by intros [= <-].
Qed.

Lemma on_epoch_start_started (self : t) :
  _is_training_started (on_epoch_start self) = true.
Proof. done. Qed.

(** C10. While [_is_training_started] is still false, as it is from
    [__init__] until the first [on_epoch_start], an epoch-end pass
    returns its log and leaves the module untouched: the history and the
    best values are the ones it found. *)
Theorem epoch_end_before_training (tr : Trainer) (stage : Stage) (self : t) :
  _is_training_started self = false →
  ∃ self' out,
    _epoch_end tr stage self = ok (self', out) ∧
    self' = self ∧
    _metrics_history self' = _metrics_history self ∧
    _best_metrics_values self' = _best_metrics_values self.
Proof.
  intros Hflag. unfold _epoch_end. rewrite Hflag. simpl.
  eexists _, _. split; [reflexivity|]. done.
Qed.

Lemma epoch_end_before_training_witness :
  _is_training_started demo_trained = false ∧
  ∃ self' out,
    _epoch_end (demo_trainer 0) val demo_trained = ok (self', out) ∧
    self' = demo_trained ∧
    _metrics_history self' = _metrics_history demo_trained ∧
    _best_metrics_values self' = _best_metrics_values demo_trained.
Proof.
  split; [vm_compute; reflexivity|].
  apply (epoch_end_before_training (demo_trainer 0) val demo_trained).
  vm_compute. reflexivity.
Defined.

(** Once training has started the same pass does record. *)
Example epoch_end_after_start :
  (λ r, (epochs (_metrics_history r.1),
         best_value <$> _best_metrics_values r.1 !! "val/loss")) <$>
    _epoch_end (demo_trainer 0) val
      (set_is_training_started true demo_trained)
  = ok ([0], Some (56 # 8)%Q).
Proof. vm_compute. reflexivity. Qed.

(** * Further properties of the code *)

(** ** Loops, continued *)

Lemma for_each_snoc {A S} (body : A → S → result S) (l : list A) (x : A)
    (s : S) :
  for_each body (l ++ [x]) s = (s' ← for_each body l s; body x s').
Proof.
  revert s. induction l as [|y l IH]; intros s; simpl.
  - by destruct (body x s).
  - destruct (body y s) as [e|s1]; simpl; [done|]. apply IH.
Qed.

Lemma for_each_cons {A S} (body : A → S → result S) (x : A) (l : list A)
    (s : S) :
  for_each body (x :: l) s = (s' ← body x s; for_each body l s').
Proof. done. Qed.

(** A property of the state that every successful pass of the body keeps
    is kept by a successful loop. *)
Lemma for_each_preserves {A S} (P : S → Prop) (body : A → S → result S)
    (l : list A) :
  (∀ x s s', x ∈ l → P s → body x s = ok s' → P s') →
  ∀ s s', P s → for_each body l s = ok s' → P s'.
Proof.
  induction l as [|x l IH]; intros Hbody s s' Hs Hrun; simpl in Hrun.
  - by injection Hrun as <-.
  - destruct (body x s) as [e|s1] eqn:Hx; simpl in Hrun; [done|].
    apply (IH (λ y t t' Hy, Hbody y t t' (proj2 (elem_of_cons l y x) (or_intror Hy))) s1);
      [|done].
    apply (Hbody x s); [apply elem_of_cons; by left|done|done].
Qed.

(** ** The best value over a run *)

Lemma update_best_shape (tr : Trainer) (m : string) (v : Q) (self self' : t) :
  _update_best_metrics tr m v self = ok self' →
  self' = self ∨
  self' = set_best_metrics_values
            (<[m := mkBestInfo v (current_epoch tr)]>
               (_best_metrics_values self)) self.
Proof.
  unfold _update_best_metrics.
  destruct (_best_metrics_spec self !! m); [|done].
  destruct (_best_metrics_values self !! m).
  - destruct (_ || _); intros [= <-]; [by right|by left].
  - intros [= <-]. by right.
Qed.

Lemma not_good_is_worse (direction : string) (v old : Q) :
  direction = "max" ∨ direction = "min" →
  ¬ at_least_as_good direction v old → strictly_worse direction v old.
Proof.
  intros [-> | ->] Hbad.
  - left. split; [done|]. apply Qnot_le_lt. intros Hle. apply Hbad. by left.
  - right. split; [done|]. apply Qnot_le_lt. intros Hle. apply Hbad. by right.
Qed.

Lemma good_trans (direction : string) (a b c : Q) :
  at_least_as_good direction a b → at_least_as_good direction b c →
  at_least_as_good direction a c.
Proof.
  intros [[-> Hab]|[-> Hab]] [[? Hbc]|[? Hbc]]; try done; [left|right];
    (split; [done|]); eapply Qle_trans; eauto.
Qed.

Lemma worse_is_not_better (direction : string) (a b : Q) :
  strictly_worse direction a b → at_least_as_good direction b a.
Proof.
  intros [[-> Hlt]|[-> Hlt]]; [left|right]; (split; [done|]);
    by apply Qlt_le_weak.
Qed.

Lemma update_best_first (tr : Trainer) (m direction : string) (v : Q)
    (self : t) :
  _best_metrics_spec self !! m = Some direction →
  _best_metrics_values self !! m = None →
  _update_best_metrics tr m v self
  = ok (set_best_metrics_values
          (<[m := mkBestInfo v (current_epoch tr)]> (_best_metrics_values self))
          self).
Proof. intros Hspec Hnone. unfold _update_best_metrics. by rewrite Hspec, Hnone. Qed.

Lemma update_best_later (tr : Trainer) (m direction : string) (v : Q)
    (self : t) (info : BestInfo) :
  _best_metrics_spec self !! m = Some direction →
  direction = "max" ∨ direction = "min" →
  _best_metrics_values self !! m = Some info →
  (at_least_as_good direction v (best_value info) ∧
   _update_best_metrics tr m v self
   = ok (set_best_metrics_values
           (<[m := mkBestInfo v (current_epoch tr)]>
              (_best_metrics_values self)) self)) ∨
  (strictly_worse direction v (best_value info) ∧
   _update_best_metrics tr m v self = ok self).
Proof.
  intros Hspec Hdir Hinfo. unfold _update_best_metrics. rewrite Hspec, Hinfo.
  pose proof (best_test_spec direction v (best_value info) Hdir) as Htest.
  destruct ((String.eqb direction "max" && Qle_bool (best_value info) v)
            || (negb (String.eqb direction "max")
                && Qle_bool v (best_value info))).
  - left. split; [by apply Htest|done].
  - right. split; [|done]. apply not_good_is_worse; [done|].
    intros Hgood. by apply Htest in Hgood.
Qed.

Lemma run_best_decomposition (m direction : string) (self : t)
    (obs : list (Trainer * Q)) :
  _best_metrics_spec self !! m = Some direction →
  direction = "max" ∨ direction = "min" →
  _best_metrics_values self !! m = None →
  obs ≠ [] →
  ∃ best pre tr v post,
    run_best m obs self = ok (set_best_metrics_values best self) ∧
    obs = pre ++ (tr, v) :: post ∧
    best !! m = Some (mkBestInfo v (current_epoch tr)) ∧
    (∀ m', m' ≠ m → best !! m' = _best_metrics_values self !! m') ∧
    Forall (λ o, at_least_as_good direction v o.2) pre ∧
    Forall (λ o, strictly_worse direction o.2 v) post.
Proof.
  intros Hspec Hdir Hnone.
  induction obs as [|[tr v] obs IH] using rev_ind; intros Hne; [done|].
  unfold run_best. rewrite for_each_snoc. fold (run_best m obs self).
  destruct obs as [|o obs'].
  - simpl. rewrite (update_best_first tr m direction) by done.
    eexists _, [], tr, v, []. split; [done|]. split; [done|].
    split; [apply lookup_insert_eq|].
    split; [by intros m' Hm'; rewrite lookup_insert_ne|]. by split.
  - assert (o :: obs' ≠ []) as Hne' by done.
    remember (o :: obs') as obs0 eqn:Hobs0. clear Hobs0.
    destruct (IH Hne') as (best & pre & tr0 & v0 & post & Hrun & Hobs & Hm
                           & Hframe & Hpre & Hpost).
    rewrite Hrun. simpl.
    destruct (update_best_later tr m direction v
                (set_best_metrics_values best self)
                (mkBestInfo v0 (current_epoch tr0)) Hspec Hdir Hm)
      as [[Hgood ->]|[Hworse ->]]; simpl.
    + eexists _, obs0, tr, v, []. split; [done|]. split; [done|].
      split; [apply lookup_insert_eq|]. split.
      { intros m' Hm'. rewrite lookup_insert_ne by done. by apply Hframe. }
      split; [|done]. rewrite Hobs. apply Forall_app. split.
      * eapply Forall_impl; [exact Hpre|]. intros o' Ho'. simpl in *.
        by eapply good_trans.
      * constructor.
        { exact Hgood. }
        eapply Forall_impl; [exact Hpost|]. intros o' Ho'. simpl in *.
        eapply good_trans; [exact Hgood|]. by apply worse_is_not_better.
    + exists best, pre, tr0, v0, (post ++ [(tr, v)]).
      split; [by destruct self|]. split.
      { rewrite Hobs. by rewrite <- app_assoc. }
      split; [done|]. split; [done|]. split; [done|].
      apply Forall_app. split; [done|]. by constructor.
Qed.



Example best_over_run_demo :
  (λ self, _best_metrics_values self !! "val/acc") <$>
    run_best "val/acc"
      [(demo_trainer 1, 10 # 1); (demo_trainer 2, 8 # 1);
       (demo_trainer 3, 10 # 1); (demo_trainer 4, 9 # 1)]%Q demo_module
  = ok (Some (mkBestInfo (10 # 1) 3)).
Proof. vm_compute. reflexivity. Qed.

(** ** Names *)

Lemma split_long_name (stage : Stage) (name : string) :
  split_on "/" (long_name stage name) = stage_name stage :: split_on "/" name.
Proof. by destruct stage. Qed.

Lemma split_on_plain (c : ascii) (s : string) :
  contains_char c s = false → split_on c s = [s].
Proof.
  induction s as [|a s IH]; simpl; [done|].
  destruct (Ascii.eqb a c); [done|]. intros Hs. by rewrite IH.
Qed.

Lemma split_on_nonempty (c : ascii) (s : string) : split_on c s ≠ [].
Proof.
  destruct s as [|a s]; simpl; [done|].
  destruct (Ascii.eqb a c); [done|]. by destruct (split_on c s).
Qed.

Lemma split_on_separator (c : ascii) (s : string) :
  contains_char c s = true → ∃ a b rest, split_on c s = a :: b :: rest.
Proof.
  induction s as [|a s IH]; simpl; [done|].
  destruct (Ascii.eqb a c).
  - intros _. pose proof (split_on_nonempty c s).
    destruct (split_on c s) as [|b rest]; [done|]. by eexists _, _, _.
  - intros Hs. destruct (IH Hs) as (a' & b & rest & ->). by eexists _, _, _.
Qed.

Global Instance long_name_inj (stage : Stage) : Inj (=) (=) (long_name stage).
Proof.
  intros n1 n2 Hn. unfold long_name in Hn.
  by apply (inj (String.append _)), (inj (String.append _)) in Hn.
Qed.

Global Instance best_name_inj (stage : Stage) : Inj (=) (=) (best_name stage).
Proof.
  intros n1 n2 Hn. unfold best_name in Hn.
  by apply (inj (String.append _)), (inj (String.append _)) in Hn.
Qed.

(** ** Re-keyed dictionaries *)

Lemma rekey_fold_lookup {V} (key : string → string) `{!Inj (=) (=) key}
    (l : list (string * V)) :
  NoDup l.*1 →
  ∀ (acc : gmap string V) (k : string),
    foldl (λ acc kv, <[key kv.1 := kv.2]> acc) acc l !! key k
    = match (list_to_map l : gmap string V) !! k with
      | Some v => Some v
      | None => acc !! key k
      end.
Proof.
  induction l as [|[k0 v0] l IH]; intros Hnd acc k; simpl.
  - by rewrite lookup_empty.
  - apply NoDup_cons in Hnd as [Hk0 Hnd]. rewrite IH by done.
    destruct (decide (k = k0)) as [->|Hk].
    + rewrite lookup_insert_eq.
      rewrite (not_elem_of_list_to_map_1 _ k0) by done.
      by rewrite lookup_insert_eq.
    + rewrite (lookup_insert_ne _ k0 k) by done.
      destruct (list_to_map l !! k); [done|].
      rewrite lookup_insert_ne; [done|]. intros Hkey. by apply (inj key) in Hkey.
Qed.

Lemma rekey_fold_origin {V} (key : string → string) (l : list (string * V))
    (acc : gmap string V) (k' : string) (v : V) :
  foldl (λ acc kv, <[key kv.1 := kv.2]> acc) acc l !! k' = Some v →
  (∃ k, (k, v) ∈ l ∧ key k = k') ∨ acc !! k' = Some v.
Proof.
  revert acc. induction l as [|[k0 v0] l IH]; intros acc; simpl; [by right|].
  intros Hlk. destruct (IH _ Hlk) as [(k & Hin & Hk)|Hacc].
  - left. exists k. split; [by apply elem_of_cons; right|done].
  - destruct (decide (key k0 = k')) as [Heq|Hne].
    + rewrite <- Heq, lookup_insert_eq in Hacc. injection Hacc as ->.
      left. exists k0. split; [by apply elem_of_cons; left|done].
    + rewrite lookup_insert_ne in Hacc by done. by right.
Qed.

Lemma dict_rekey_lookup {V} (key : string → string) `{!Inj (=) (=) key}
    (d : gmap string V) (k : string) :
  dict_rekey key d !! key k = d !! k.
Proof.
  unfold dict_rekey.
  rewrite rekey_fold_lookup by (done || apply NoDup_fst_map_to_list).
  rewrite list_to_map_to_list, lookup_empty. by destruct (d !! k).
Qed.

Lemma dict_rekey_origin {V} (key : string → string) (d : gmap string V)
    (k' : string) (v : V) :
  dict_rekey key d !! k' = Some v → ∃ k, key k = k' ∧ d !! k = Some v.
Proof.
  intros Hlk. apply rekey_fold_origin in Hlk as [(k & Hin & Hk)|Hlk].
  - exists k. split; [done|]. by apply elem_of_map_to_list in Hin.
  - by rewrite lookup_empty in Hlk.
Qed.

(** ** The best-value loop of [_epoch_end] *)

Lemma update_best_entry (tr : Trainer) (m direction : string) (v : Q)
    (self : t) :
  _best_metrics_spec self !! m = Some direction →
  _update_best_metrics tr m v self
  = ok (set_best_metrics_values
          (<[m := best_entry_after tr direction v
                    (_best_metrics_values self !! m)]>
             (_best_metrics_values self)) self).
Proof.
  intros Hspec. unfold _update_best_metrics, best_entry_after. rewrite Hspec.
  destruct (_best_metrics_values self !! m) as [info|] eqn:Hinfo; [|done].
  destruct (_ || _); [done|].
  rewrite insert_id by done. by destruct self.
Qed.

Lemma track_best_long (tr : Trainer) (stage : Stage) (n : string) (v : Q)
    (self : t) (log : gmap string Q) :
  track_best tr stage (long_name stage n) v (self, log)
  = match _best_metrics_spec self !! long_name stage n with
    | None => ok (self, log)
    | Some d =>
        if contains_char "/" n then raise ValueError
        else
          let entry := best_entry_after tr d v
                         (_best_metrics_values self !! long_name stage n) in
          ok (set_best_metrics_values
                (<[long_name stage n := entry]> (_best_metrics_values self))
                self,
              <[best_name stage n := best_value entry]> log)
    end.
Proof.
  unfold track_best.
  destruct (_best_metrics_spec self !! long_name stage n) as [d|] eqn:Hspec.
  - rewrite bool_decide_eq_true_2 by done.
    rewrite (update_best_entry tr _ d) by done. simpl.
    rewrite split_long_name.
    destruct (contains_char "/" n) eqn:Hn.
    + by destruct (split_on_separator "/" n Hn) as (a & b & rest & ->).
    + rewrite split_on_plain by done. rewrite String.eqb_refl. simpl.
      unfold _get_best_value. simpl. by rewrite lookup_insert_eq.
  - rewrite bool_decide_eq_false_2; [done|]. by intros [? ?].
Qed.

Lemma track_best_loop (tr : Trainer) (stage : Stage) (self : t)
    (l : list (string * Q)) :
  NoDup l.*1 →
  (∀ m v, (m, v) ∈ l →
     ∃ n, m = long_name stage n ∧
          (is_Some (_best_metrics_spec self !! m) →
           contains_char "/" n = false)) →
  ∀ (bv : gmap string BestInfo) (log : gmap string Q),
  ∃ bv' log',
    for_each (λ kv, track_best tr stage kv.1 kv.2) l
      (set_best_metrics_values bv self, log)
    = ok (set_best_metrics_values bv' self, log') ∧
    (∀ m, bv' !! m
          = match (list_to_map l : gmap string Q) !! m,
                  _best_metrics_spec self !! m with
            | Some v, Some d => Some (best_entry_after tr d v (bv !! m))
            | _, _ => bv !! m
            end) ∧
    (∀ n v d,
       (list_to_map l : gmap string Q) !! long_name stage n = Some v →
       _best_metrics_spec self !! long_name stage n = Some d →
       log' !! best_name stage n
       = Some (best_value
                 (best_entry_after tr d v (bv !! long_name stage n)))) ∧
    (∀ k,
       (∀ n, is_Some ((list_to_map l : gmap string Q) !! long_name stage n) →
             is_Some (_best_metrics_spec self !! long_name stage n) →
             k ≠ best_name stage n) →
       log' !! k = log !! k).
Proof.
  induction l as [|[m0 v0] l IH]; intros Hnd Hitems bv log.
  { exists bv, log. by repeat split. }
  apply NoDup_cons in Hnd as [Hm0 Hnd].
  assert (∀ m v, (m, v) ∈ l →
            ∃ n, m = long_name stage n ∧
                 (is_Some (_best_metrics_spec self !! m) →
                  contains_char "/" n = false)) as Hitems'.
  { intros m v Hin. apply (Hitems m v). apply elem_of_cons. by right. }
  destruct (Hitems m0 v0) as (n0 & -> & Hn0); [apply elem_of_cons; by left|].
  assert ((list_to_map l : gmap string Q) !! long_name stage n0 = None)
    as Hfresh by (by apply not_elem_of_list_to_map_1).
  rewrite for_each_cons. cbn [fst snd]. rewrite track_best_long.
  cbn [_best_metrics_spec _best_metrics_values set_best_metrics_values].
  destruct (_best_metrics_spec self !! long_name stage n0) as [d0|] eqn:Hspec.
  - rewrite Hn0 by done. simpl.
    set (entry := best_entry_after tr d0 v0 (bv !! long_name stage n0)).
    destruct (IH Hnd Hitems' (<[long_name stage n0 := entry]> bv)
                (<[best_name stage n0 := best_value entry]> log))
      as (bv' & log' & Hrun & Hbv & Hlog & Hother).
    exists bv', log'. split; [exact Hrun|]. split; [|split].
    + intros m. rewrite Hbv. destruct (decide (m = long_name stage n0)) as [->|Hm].
      * rewrite Hfresh, !lookup_insert_eq, Hspec. done.
      * rewrite !(lookup_insert_ne _ (long_name stage n0) m) by done. done.
    + intros n v d Hv Hd.
      destruct (decide (n = n0)) as [->|Hn].
      * rewrite lookup_insert_eq in Hv. injection Hv as <-.
        rewrite Hspec in Hd. injection Hd as <-.
        rewrite Hother; [apply lookup_insert_eq|].
        intros n [x Hx] _ Heq. apply (inj (best_name stage)) in Heq as <-.
        by rewrite Hfresh in Hx.
      * assert (long_name stage n0 ≠ long_name stage n) as Hne
          by (intros Heq; by apply (inj (long_name stage)) in Heq).
        rewrite lookup_insert_ne in Hv by done.
        rewrite (Hlog n v d Hv Hd). by rewrite lookup_insert_ne.
    + intros k Hk. rewrite Hother.
      * rewrite lookup_insert_ne; [done|]. intros Heq. symmetry in Heq.
        revert Heq. apply Hk; [|by rewrite Hspec].
        rewrite lookup_insert_eq. by eexists.
      * intros n [x Hx] Hd. apply Hk; [|done].
        destruct (decide (long_name stage n0 = long_name stage n)) as [Heq|Hne].
        { rewrite <- Heq, lookup_insert_eq. by eexists. }
        rewrite lookup_insert_ne by done. by eexists.
  - simpl.
    destruct (IH Hnd Hitems' bv log) as (bv' & log' & Hrun & Hbv & Hlog & Hother).
    exists bv', log'. split; [|split; [|split]].
    + by destruct self.
    + intros m. rewrite Hbv. destruct (decide (m = long_name stage n0)) as [->|Hm].
      * by rewrite Hfresh, !lookup_insert_eq, Hspec.
      * by rewrite (lookup_insert_ne _ (long_name stage n0) m).
    + intros n v d Hv Hd. apply Hlog; [|done].
      destruct (decide (long_name stage n0 = long_name stage n)) as [Heq|Hne].
      { rewrite <- Heq, Hspec in Hd. done. }
      by rewrite lookup_insert_ne in Hv.
    + intros k Hk. apply Hother. intros n [x Hx] Hd. apply Hk; [|done].
      destruct (decide (long_name stage n0 = long_name stage n)) as [Heq|Hne].
      { rewrite <- Heq, Hspec in Hd. by destruct Hd. }
      rewrite lookup_insert_ne by done. by eexists.
Qed.

Lemma set_best_metrics_values_id (self : t) :
  set_best_metrics_values (_best_metrics_values self) self = self.
Proof. by destruct self. Qed.

Lemma best_name_not_reserved (stage : Stage) (n : string) :
  best_name stage n ≠ "step" ∧
  best_name stage n ≠ "system/global_step" ∧
  best_name stage n ≠ "system/epoch".
Proof. by destruct stage. Qed.

Lemma long_lookup (stage : Stage) (info : gmap string Q) (n : string) :
  dict_rekey (long_name stage) info !! long_name stage n = info !! n.
Proof. apply dict_rekey_lookup, _. Qed.

Lemma long_items (stage : Stage) (info : gmap string Q) (m : string) (v : Q) :
  (m, v) ∈ map_to_list (dict_rekey (long_name stage) info) →
  ∃ n, m = long_name stage n ∧ info !! n = Some v.
Proof.
  intros Hin. apply elem_of_map_to_list in Hin.
  apply dict_rekey_origin in Hin as (n & <- & Hn). by exists n.
Qed.

(** X2. Once training has started, and provided no tracked metric of the
    stage has a ['/'] in its short name, [_epoch_end] returns: the
    history is updated by [record_epoch] with the (reduced) averages of
    the stage, every average whose long name [stage/name] is tracked goes
    through [_update_best_metrics] exactly as a direct call on the module
    would, its best value is logged under [stage/best_name], and the
    entries of all other metrics stay.  The progress bar holds the
    averages under their long names. *)
Theorem epoch_end_records_and_tracks (tr : Trainer) (stage : Stage)
    (self : t) :
  let info := reduce tr (_get_avg_epoch_metrics stage self) in
  _is_training_started self = true →
  (∀ n, is_Some (info !! n) →
        is_Some (_best_metrics_spec self !! long_name stage n) →
        contains_char "/" n = false) →
  ∃ best out,
    _epoch_end tr stage self
    = ok (set_best_metrics_values best
            (set_metrics_history
               (record_epoch (current_epoch tr) stage info
                  (_metrics_history self)) self),
          out) ∧
    (∀ n v,
       info !! n = Some v →
       is_Some (_best_metrics_spec self !! long_name stage n) →
       ∃ self1 entry,
         _update_best_metrics tr (long_name stage n) v self = ok self1 ∧
         _best_metrics_values self1 !! long_name stage n = Some entry ∧
         best !! long_name stage n = Some entry ∧
         log out !! best_name stage n = Some (best_value entry)) ∧
    (∀ m,
       _best_metrics_spec self !! m = None ∨
       (∀ n, is_Some (info !! n) → m ≠ long_name stage n) →
       best !! m = _best_metrics_values self !! m) ∧
    progress_bar out = dict_rekey (long_name stage) info.
Proof.
  intros info Hstarted Hplain. unfold _epoch_end. fold info. rewrite Hstarted.
  set (self1 := set_metrics_history _ self).
  set (long := dict_rekey (long_name stage) info).
  destruct (track_best_loop tr stage self1 (map_to_list long))
    with (bv := _best_metrics_values self) (log := long)
    as (best & log' & Hrun & Hbest & Hlog & _).
  { apply NoDup_fst_map_to_list. }
  { intros m v Hin. apply long_items in Hin as (n & -> & Hn).
    exists n. split; [done|]. intros Htracked. apply Hplain; [by eexists|done]. }
  change (set_best_metrics_values (_best_metrics_values self) self1)
    with (set_best_metrics_values (_best_metrics_values self1) self1) in Hrun.
  rewrite set_best_metrics_values_id in Hrun.
  unfold for_items. rewrite Hrun. simpl. eexists best, _. split; [reflexivity|].
  rewrite list_to_map_to_list in Hbest, Hlog. simpl in Hbest, Hlog.
  split; [|split; [|done]].
  - intros n v Hn [d Hd].
    assert (long !! long_name stage n = Some v) as Hlong
      by (unfold long; by rewrite long_lookup).
    eexists _, _. split; [by apply (update_best_entry tr _ d)|].
    simpl. split; [apply lookup_insert_eq|]. split.
    + by rewrite Hbest, Hlong, Hd.
    + destruct (best_name_not_reserved stage n) as (H1 & H2 & H3).
      unfold _add_extended_log. rewrite !lookup_insert_ne by done.
      by apply Hlog.
  - intros m Hm. rewrite Hbest.
    destruct (long !! m) as [v|] eqn:Hlong; [|done].
    destruct Hm as [->|Hm]; [done|].
    apply dict_rekey_origin in Hlong as (n & <- & Hn).
    destruct (Hm n); [by eexists|done].
Qed.

Lemma for_each_outcome {A S} (P : S → Prop) (body : A → S → result S)
    (e : exn) (l : list A) :
  (∀ x s, x ∈ l → P s →
          (∃ s', body x s = ok s' ∧ P s') ∨ body x s = raise e) →
  ∀ s, P s →
       (∃ s', for_each body l s = ok s' ∧ P s') ∨
       for_each body l s = raise e.
Proof.
  induction l as [|x l IH]; intros Hbody s Hs; [left; by exists s|].
  rewrite for_each_cons.
  destruct (Hbody x s) as [(s1 & -> & Hs1)| ->];
    [apply elem_of_cons; by left|done| |by right].
  simpl. apply IH; [|done]. intros y t Hy. apply Hbody, elem_of_cons. by right.
Qed.

Lemma for_each_raises_later {A S} (P : S → Prop) (body : A → S → result S)
    (e : exn) (l : list A) (x0 : A) :
  (∀ x s, x ∈ l → P s →
          (∃ s', body x s = ok s' ∧ P s') ∨ body x s = raise e) →
  x0 ∈ l → (∀ s, P s → body x0 s = raise e) →
  ∀ s, P s → for_each body l s = raise e.
Proof.
  induction l as [|x l IH]; intros Hbody Hin Hx0 s Hs.
  - by apply elem_of_nil in Hin.
  - rewrite for_each_cons. apply elem_of_cons in Hin as [<-|Hin].
    + by rewrite Hx0.
    + destruct (Hbody x s) as [(s1 & -> & Hs1)| ->];
        [apply elem_of_cons; by left|done| |done].
      simpl. apply IH; try done.
      intros y t Hy. apply Hbody, elem_of_cons. by right.
Qed.

Lemma track_best_outcome (tr : Trainer) (stage : Stage) (n : string) (v : Q)
    (spec : gmap string string) (acc : t * gmap string Q) :
  _best_metrics_spec acc.1 = spec →
  (∃ acc', track_best tr stage (long_name stage n) v acc = ok acc' ∧
           _best_metrics_spec acc'.1 = spec) ∨
  track_best tr stage (long_name stage n) v acc = raise ValueError.
Proof.
  destruct acc as [self log]. intros Hspec. rewrite track_best_long.
  cbn [fst] in Hspec.
  destruct (_best_metrics_spec self !! long_name stage n); [|left; by eexists].
  destruct (contains_char "/" n); [by right|]. left. by eexists.
Qed.

Lemma epoch_end_unfold (tr : Trainer) (stage : Stage) (self : t) :
  let info := reduce tr (_get_avg_epoch_metrics stage self) in
  let long := dict_rekey (long_name stage) info in
  _epoch_end tr stage self
  = (acc ← (if _is_training_started self
             then for_each (λ kv, track_best tr stage kv.1 kv.2)
                    (map_to_list long)
                    (set_metrics_history
                       (record_epoch (current_epoch tr) stage info
                          (_metrics_history self)) self, long)
             else ok (self, long));
     ok (acc.1,
         mkEpochEndOutput long
           (_add_extended_log tr
              (<["step" := inject_Z (current_epoch tr)]> acc.2)))).
Proof.
  intros info long. unfold _epoch_end, for_items. fold info long.
  destruct (_is_training_started self).
  - by destruct (for_each _ _ _) as [e|[s log]].
  - done.
Qed.

(** X3. [_epoch_end] either returns or raises [ValueError]: neither the
    stage assertion nor a missing best value can stop it.  It raises
    [ValueError] once training has started and some average of the stage
    is tracked under a long name [stage/name] whose short name holds a
    ['/'], because the long name then splits into more than two
    pieces. *)
Theorem epoch_end_value_error (tr : Trainer) (stage : Stage) (self : t) :
  ((∃ r, _epoch_end tr stage self = ok r) ∨
   _epoch_end tr stage self = raise ValueError) ∧
  (∀ n,
     _is_training_started self = true →
     is_Some (reduce tr (_get_avg_epoch_metrics stage self) !! n) →
     is_Some (_best_metrics_spec self !! long_name stage n) →
     contains_char "/" n = true →
     _epoch_end tr stage self = raise ValueError).
Proof.
  set (info := reduce tr (_get_avg_epoch_metrics stage self)).
  set (long := dict_rekey (long_name stage) info).
  set (self1 := set_metrics_history
                  (record_epoch (current_epoch tr) stage info
                     (_metrics_history self)) self).
  set (P := λ acc : t * gmap string Q,
              _best_metrics_spec acc.1 = _best_metrics_spec self).
  assert (∀ x acc, x ∈ map_to_list long → P acc →
            (∃ acc', track_best tr stage x.1 x.2 acc = ok acc' ∧ P acc') ∨
            track_best tr stage x.1 x.2 acc = raise ValueError) as Hbody.
  { intros [m v] acc Hin Hacc. apply long_items in Hin as (n & -> & _).
    by apply track_best_outcome. }
  split.
  - rewrite epoch_end_unfold. fold info long self1.
    destruct (_is_training_started self); [|left; by eexists].
    destruct (for_each_outcome P (λ kv, track_best tr stage kv.1 kv.2)
                ValueError (map_to_list long) Hbody
                (self1, long)) as [([s' log'] & -> & _)| ->];
      [done|left; by eexists|by right].
  - intros n Hstarted [v Hn] [d Hd] Hslash.
    rewrite epoch_end_unfold. fold info long self1. rewrite Hstarted.
    rewrite (for_each_raises_later P (λ kv, track_best tr stage kv.1 kv.2)
               ValueError (map_to_list long)
               (long_name stage n, v) Hbody); try done.
    + apply elem_of_map_to_list. unfold long. by rewrite long_lookup.
    + intros [s log] Hs. cbn [fst snd]. rewrite track_best_long.
      unfold P in Hs. cbn [fst] in Hs. by rewrite Hs, Hd, Hslash.
Qed.

Example init_slash : __init__ (HDictConfig slash_conf) = ok slash_module.
Proof. vm_compute. reflexivity. Qed.

Lemma epoch_end_value_error_witness :
  _epoch_end (demo_trainer 0) val (on_epoch_start slash_module)
  = raise ValueError.
Proof.
  apply (epoch_end_value_error (demo_trainer 0) val
           (on_epoch_start slash_module)) with (n := "top/1"%string).
  - reflexivity.
  - exists 0%Q. vm_compute. reflexivity.
  - exists "max"%string. vm_compute. reflexivity.
  - reflexivity.
Defined.

Lemma demo_started_averages :
  reduce (demo_trainer 0) (_get_avg_epoch_metrics val demo_started)
  = {["acc" := 0; "loss" := 56 # 8]}%Q.
Proof. vm_compute. reflexivity. Qed.

Lemma epoch_end_records_and_tracks_witness :
  ∃ best out,
    _epoch_end (demo_trainer 0) val demo_started
    = ok (set_best_metrics_values best
            (set_metrics_history
               (record_epoch 0 val
                  (reduce (demo_trainer 0)
                     (_get_avg_epoch_metrics val demo_started))
                  (_metrics_history demo_started)) demo_started),
          out) ∧
    best !! "val/loss" = Some (mkBestInfo (56 # 8) 0) ∧
    log out !! "val/best_loss" = Some (56 # 8)%Q.
Proof.
  destruct (epoch_end_records_and_tracks (demo_trainer 0) val demo_started)
    as (best & out & Hrun & Htracked & _).
  - reflexivity.
  - intros n Hn _. rewrite demo_started_averages in Hn.
    destruct (decide (n = "loss"%string)) as [->|Hloss]; [reflexivity|].
    destruct (decide (n = "acc"%string)) as [->|Hacc]; [reflexivity|].
    rewrite lookup_insert_ne, lookup_singleton_ne in Hn by done.
    by destruct Hn.
  - exists best, out. split; [exact Hrun|].
    destruct (Htracked "loss"%string (56 # 8)%Q)
      as (self1 & entry & Hupd & Hentry & Hbest & Hlog).
    + rewrite demo_started_averages. reflexivity.
    + exists "min"%string. vm_compute. reflexivity.
    + assert (entry = mkBestInfo (56 # 8) 0) as ->.
      { vm_compute in Hupd. injection Hupd as <-.
        vm_compute in Hentry. by injection Hentry as <-. }
      by split.
Defined.

(** ** The history only grows at its end *)

Lemma record_epoch_cases (e : Z) (stage : Stage) (values : gmap string Q)
    (history : list EpochInfo) :
  record_epoch e stage values history
    = history ++ [update_stage stage values (new_epoch_info e)] ∨
  ∃ earlier latest,
    history = earlier ++ [latest] ∧ epoch latest = e ∧
    record_epoch e stage values history
    = earlier ++ [update_stage stage values latest].
Proof.
  destruct (last history) as [latest|] eqn:Hlast.
  - apply last_Some in Hlast as [earlier ->].
    destruct (decide (epoch latest = e)) as [He|He].
    + right. exists earlier, latest. by rewrite record_epoch_merge.
    + left. apply record_epoch_append. intros latest'. rewrite last_snoc.
      by intros [= <-].
  - left. apply record_epoch_append. by rewrite Hlast.
Qed.

Lemma record_epoch_stable (e : Z) (stage : Stage) (values : gmap string Q)
    (history : list EpochInfo) :
  (length history ≤ length (record_epoch e stage values history)
                  ≤ S (length history))%nat ∧
  ∀ i, (S i < length history)%nat →
       record_epoch e stage values history !! i = history !! i.
Proof.
  destruct (record_epoch_cases e stage values history)
    as [->|(earlier & latest & -> & _ & ->)].
  - rewrite length_app. simpl. split; [lia|]. intros i Hi.
    apply lookup_app_l. lia.
  - rewrite !length_app. simpl. split; [lia|]. intros i Hi.
    simpl in Hi. rewrite !lookup_app_l by lia. done.
Qed.

(** X4. Whatever sequence of [record_epoch] updates is applied, the
    history is only ever changed at its end: every record before the
    latest one stays as it is, the epoch indices already recorded remain
    a prefix of the indices afterwards, the history grows by at most one
    record per update, and after a non-empty sequence the latest record
    carries the index of the last update. *)
Theorem history_changes_at_its_end (calls : list RecordCall)
    (history : list EpochInfo) :
  (length history ≤ length (run_records calls history)
                  ≤ length history + length calls)%nat ∧
  (∀ i, (S i < length history)%nat →
        run_records calls history !! i = history !! i) ∧
  epochs history `prefix_of` epochs (run_records calls history) ∧
  (∀ c, last calls = Some c →
        last (epochs (run_records calls history)) = Some (rec_epoch c)).
Proof.
  revert history. induction calls as [|c calls IH]; intros history; simpl.
  { split; [lia|]. by repeat split. }
  destruct (IH (record_epoch (rec_epoch c) (rec_stage c) (rec_values c) history))
    as (Hlen & Hstable & Hprefix & Hlast).
  destruct (record_epoch_stable (rec_epoch c) (rec_stage c) (rec_values c)
              history) as [Hlen1 Hstable1].
  split; [lia|]. split; [|split].
  - intros i Hi. rewrite Hstable by lia. by apply Hstable1.
  - etrans; [|exact Hprefix]. rewrite record_epoch_epochs.
    case_decide; [done|]. by apply prefix_app_r.
  - intros c' Hc'. destruct calls as [|c'' calls].
    + simpl in *. injection Hc' as <-. rewrite record_epoch_epochs.
      case_decide; [done|]. apply last_snoc.
    + apply Hlast. by rewrite last_cons_cons in Hc'.
Qed.

Lemma history_changes_at_its_end_witness :
  last demo_revisit = Some (mkRecordCall 3 val {["loss" := 1 # 3]}%Q) ∧
  last (epochs (run_records demo_revisit [])) = Some 3.
Proof.
  split; [reflexivity|].
  destruct (history_changes_at_its_end demo_revisit []) as (_ & _ & _ & Hlast).
  apply (Hlast (mkRecordCall 3 val {["loss" := 1 # 3]}%Q)). reflexivity.
Defined.

(** ** Construction, continued *)

Lemma fresh_meters_lookup (names : list string) (m : string) :
  fresh_meters names !! m
  = if decide (m ∈ names) then Some AverageMeter.new else None.
Proof.
  unfold fresh_meters.
  assert (∀ acc : gmap string AverageMeter.t,
            foldl (λ acc m, <[m := AverageMeter.new]> acc) acc names !! m
            = if decide (m ∈ names) then Some AverageMeter.new else acc !! m)
    as Hfold.
  { induction names as [|n names IH]; intros acc; cbn [foldl].
    - case_decide as Hin; [by apply elem_of_nil in Hin|done].
    - rewrite IH.
      destruct (decide (m ∈ names)) as [Hin|Hin],
               (decide (m ∈ n :: names)) as [Hin'|Hin']; try done.
      + destruct Hin'. apply elem_of_cons. by right.
      + apply elem_of_cons in Hin' as [->|?]; [by rewrite lookup_insert_eq|done].
      + rewrite lookup_insert_ne; [done|]. intros <-.
        apply Hin', elem_of_cons. by left. }
  rewrite Hfold. by rewrite lookup_empty.
Qed.

Lemma check_best_entry_well_formed (name value : string) :
  well_formed_entry name value → check_best_entry name value tt = ok tt.
Proof.
  intros [Hslash Hdir]. unfold check_best_entry. rewrite Hslash. simpl.
  rewrite bool_decide_eq_true_2; [done|].
  destruct Hdir as [-> | ->]; set_solver.
Qed.

(** X5. [__init__] accepts every configuration that names its training
    and validation metrics and whose best-metric entries are all
    well-formed.  The module it builds has, for each stage, one new meter
    per listed name and no other (the test stage takes the validation
    names when [test_metrics] is absent), an empty history, no best
    values, the given best-metric specification, and has not started
    training.  Without [train_metrics] or [val_metrics] it raises
    [KeyError]. *)
Theorem init_accepts_well_formed (hparams : HParams) (conf : Conf) :
  hparams = HDictConfig conf ∨ hparams = HNamespace conf →
  (∀ tm vm,
     conf_train_metrics conf = Some tm → conf_val_metrics conf = Some vm →
     (∀ name d, default ∅ (conf_best_metrics conf) !! name = Some d →
                well_formed_entry name d) →
     ∃ self,
       __init__ hparams = ok self ∧
       (∀ st m,
          stage_get st (_metrics_meter self) !! m
          = if decide (m ∈ match st with
                            | train => tm
                            | val => vm
                            | test => default vm (conf_test_metrics conf)
                            end)
            then Some AverageMeter.new else None) ∧
       _metrics_history self = [] ∧
       _best_metrics_values self = ∅ ∧
       _best_metrics_spec self = default ∅ (conf_best_metrics conf) ∧
       _is_training_started self = false) ∧
  (conf_train_metrics conf = None ∨ conf_val_metrics conf = None →
   __init__ hparams = raise KeyError).
Proof.
  intros Hh.
  assert (__init__ hparams = __init__ (HDictConfig conf)) as ->
    by (by destruct Hh as [-> | ->]).
  destruct conf as [tm0 vm0 sm bm dbg]. unfold __init__. simpl. split.
  - intros tm vm -> -> Hwf. simpl.
    assert (for_items check_best_entry (default ∅ bm) tt = ok tt) as Hloop.
    { unfold for_items. apply for_each_unchanged, Forall_forall.
      intros [name d] Hin. simpl. apply check_best_entry_well_formed.
      apply Hwf. by apply elem_of_map_to_list. }
    destruct sm as [sm|], bm as [bm|], dbg as [dbg|]; simpl in *;
      rewrite Hloop; simpl; (eexists; split; [reflexivity|]);
      (split; [|done]); intros [] m; simpl; apply fresh_meters_lookup.
  - intros [-> | ->]; [done|]. by destruct tm0.
Qed.

Lemma init_accepts_well_formed_witness :
  ∃ self,
    __init__ (HDictConfig demo_conf) = ok self ∧
    (∀ st m,
       stage_get st (_metrics_meter self) !! m
       = if decide (m ∈ match st with
                         | train => ["loss"; "acc"]
                         | val => ["loss"; "acc"]
                         | test => default ["loss"; "acc"]
                                     (conf_test_metrics demo_conf)
                         end%string)
         then Some AverageMeter.new else None) ∧
    _metrics_history self = [] ∧
    _best_metrics_values self = ∅ ∧
    _best_metrics_spec self = default ∅ (conf_best_metrics demo_conf) ∧
    _is_training_started self = false.
Proof.
  destruct (init_accepts_well_formed (HDictConfig demo_conf) demo_conf)
    as [Haccept _]; [by left|].
  apply Haccept; [reflexivity|reflexivity|].
  intros name d Hentry. simpl in Hentry.
  destruct (decide (name = "val/acc"%string)) as [->|Hacc].
  { rewrite lookup_insert_eq in Hentry. injection Hentry as <-.
    split; [reflexivity|by right]. }
  rewrite lookup_insert_ne in Hentry by done.
  apply lookup_singleton_Some in Hentry as [<- <-].
  split; [reflexivity|by left].
Defined.

(** ** Checkpoints *)

(** X6. What [on_save_checkpoint] stores is what [on_load_checkpoint]
    restores: loading a checkpoint saved from [self] into any module
    gives that module the history and the best values of [self] and keeps
    the rest of it, so loading it back into [self] changes nothing.
    Saving keeps the framework's entries of the checkpoint, and a
    checkpoint without the ['extended'] entry cannot be loaded. *)
Theorem checkpoint_round_trip {A} (self other : t) (checkpoint : Checkpoint.t A) :
  let saved := Checkpoint.on_save_checkpoint self checkpoint in
  (∃ other',
     Checkpoint.on_load_checkpoint saved other = ok other' ∧
     _metrics_history other' = _metrics_history self ∧
     _best_metrics_values other' = _best_metrics_values self ∧
     _metrics_meter other' = _metrics_meter other ∧
     _train_step_meter other' = _train_step_meter other ∧
     _best_metrics_spec other' = _best_metrics_spec other ∧
     _is_training_started other' = _is_training_started other) ∧
  Checkpoint.on_load_checkpoint saved self = ok self ∧
  Checkpoint.framework saved = Checkpoint.framework checkpoint ∧
  (Checkpoint.extended checkpoint = None →
   Checkpoint.on_load_checkpoint checkpoint other = raise KeyError).
Proof.
  intros saved. split; [|split; [|split]].
  - eexists. split; [reflexivity|]. by repeat split.
  - by destruct self.
  - done.
  - intros Hnone. unfold Checkpoint.on_load_checkpoint. by rewrite Hnone.
Qed.

(** ** Data loaders *)

Lemma divide_by_gpu_unset (C : gmap string Z) (num_gpus : Z) (name : string)
    (default : option Z) :
  C !! name = None → C !! ("global_" +:+ name) = None →
  Loader._divide_by_gpu C num_gpus name default
  = match default with
    | Some d => returns d
    | None => throw (Exn KeyError)
    end.
Proof. unfold Loader._divide_by_gpu. by intros -> ->. Qed.

(** X7. [_divide_by_gpu] prefers the local setting: when [name] is
    configured its value is returned if positive and the assertion fails
    otherwise, with no look at the global setting, the default or the
    number of GPUs.  Without it, a configured [global_name] is split
    evenly: with no GPU the division raises [ZeroDivisionError], a value
    that is no multiple of the number of GPUs fails the assertion, and a
    returned value times the number of GPUs is the global value again.
    With neither setting the default is returned, or [KeyError] raised
    when there is none. *)
Theorem divide_by_gpu_cases (C : gmap string Z) (num_gpus : Z)
    (name : string) (default : option Z) :
  let result := Loader._divide_by_gpu C num_gpus name default in
  (∀ v, C !! name = Some v →
        (0 < v → result = returns v) ∧
        (v <= 0 → result = throw (Exn AssertionError))) ∧
  (∀ g, C !! name = None → C !! ("global_" +:+ name) = Some g →
        (num_gpus = 0 → result = throw ZeroDivisionError) ∧
        (num_gpus ≠ 0 → g mod num_gpus ≠ 0 →
         result = throw (Exn AssertionError)) ∧
        (num_gpus ≠ 0 → g mod num_gpus = 0 →
         result = returns (g / num_gpus)) ∧
        (∀ v, result = returns v → v * num_gpus = g)) ∧
  (C !! name = None → C !! ("global_" +:+ name) = None →
   result = match default with
            | Some d => returns d
            | None => throw (Exn KeyError)
            end).
Proof.
  intros result. unfold result, Loader._divide_by_gpu. split; [|split].
  - intros v ->. split; intros Hv.
    + by rewrite (proj2 (Z.ltb_lt 0 v) Hv).
    + by rewrite (proj2 (Z.ltb_ge 0 v) Hv).
  - intros g -> ->.
    destruct (Z.eqb_spec num_gpus 0) as [Hn|Hn].
    { split; [done|]. split; [done|]. split; [done|]. by intros v. }
    split; [done|].
    destruct (Z.eqb_spec (g mod num_gpus) 0) as [Hmod|Hmod]; simpl.
    + split; [done|]. split; [done|]. intros v [= <-].
      pose proof (Z.div_mod g num_gpus Hn). lia.
    + split; [done|]. split; [done|]. by intros v.
  - by intros -> ->.
Qed.

Lemma divide_by_gpu_cases_witness :
  4 ≠ 0 ∧ 256 mod 4 = 0 ∧
  Loader._divide_by_gpu {["global_batch_size" := 256]} 4 "batch_size" None
  = returns 64.
Proof.
  split; [discriminate|]. split; [reflexivity|].
  destruct (divide_by_gpu_cases {["global_batch_size" := 256]} 4
              "batch_size" None) as (_ & Hglobal & _).
  destruct (Hglobal 256) as (_ & _ & Hsplit & _).
  - vm_compute. reflexivity.
  - vm_compute. reflexivity.
  - apply Hsplit; [discriminate|reflexivity].
Defined.

(** The global setting is not checked for its sign, and fails without a
    GPU. *)
Example divide_by_gpu_negative :
  Loader._divide_by_gpu {["global_batch_size" := -8]} 4 "batch_size" None
  = returns (-2).
Proof. vm_compute. reflexivity. Qed.

Example divide_by_gpu_cpu :
  Loader._divide_by_gpu {["global_batch_size" := 64]} 0 "batch_size" None
  = throw ZeroDivisionError.
Proof. vm_compute. reflexivity. Qed.



Lemma checkpoint_round_trip_witness :
  Checkpoint.on_load_checkpoint
    (Checkpoint.on_save_checkpoint demo_best (Checkpoint.mk None tt))
    demo_best
  = ok demo_best.
Proof.
  apply (checkpoint_round_trip demo_best demo_trained (Checkpoint.mk None tt)).
Defined.

(** ** Run names *)

Lemma assert_all {A} (test : A → bool) (l : list A) :
  (for_each (λ x _, assert (test x)) l tt = ok tt ↔
   ∀ x, x ∈ l → test x = true) ∧
  (for_each (λ x _, assert (test x)) l tt = ok tt ∨
   for_each (λ x _, assert (test x)) l tt = raise AssertionError).
Proof.
  induction l as [|x l [IH1 IH2]]; simpl.
  - split; [|by left]. split; [|done]. intros _ x Hx.
    by apply elem_of_nil in Hx.
  - destruct (test x) eqn:Hx; simpl.
    + split; [|done]. rewrite IH1. split.
      * intros Hl y [->|Hy]%elem_of_cons; [done|by apply Hl].
      * intros Hl y Hy. apply Hl, elem_of_cons. by right.
    + split; [|by right]. split; [done|]. intros Hl.
      rewrite Hl in Hx; [done|]. apply elem_of_cons. by left.
Qed.

(** X9. [_check_run_name] accepts a run name exactly when none of the
    fifteen special characters occurs in it, and otherwise fails its
    assertion. *)
Theorem check_run_name_accepts (run_name : string) :
  (_check_run_name run_name = ok tt ↔
   ∀ c, c ∈ special_chars → contains_char c run_name = false) ∧
  (_check_run_name run_name = ok tt ∨
   _check_run_name run_name = raise AssertionError).
Proof.
  unfold _check_run_name.
  destruct (assert_all (λ c, negb (contains_char c run_name)) special_chars)
    as [Hiff Hcases].
  split; [|exact Hcases]. rewrite Hiff.
  split; intros Hall c Hc; specialize (Hall c Hc);
    by destruct (contains_char c run_name).
Qed.

Example special_chars_count : length special_chars = 15%nat.
Proof. reflexivity. Qed.

Example run_name_of_overrides :
  _check_run_name "arch=resnet18,lr=0.2" = ok tt.
Proof. vm_compute. reflexivity. Qed.

Example run_name_with_path :
  _check_run_name "data=~/imagenet" = raise AssertionError.
Proof. vm_compute. reflexivity. Qed.

(** ** Steps *)

Lemma for_each_o_raises {A S} (body : A → S → outcome S) (e : exception)
    (l : list A) (s : S) (x : A) :
  Forall (λ y, body y s = returns s ∨ body y s = throw e) l →
  x ∈ l → body x s = throw e →
  for_each_o body l s = throw e.
Proof.
  induction 1 as [|y l Hy Hl IH]; intros Hin Hx.
  - by apply elem_of_nil in Hin.
  - simpl. apply elem_of_cons in Hin as [<-|Hin].
    + by rewrite Hx.
    + destruct Hy as [Hy|Hy]; rewrite Hy; simpl; [by apply IH|done].
Qed.

Lemma for_each_o_unchanged {A S} (body : A → S → outcome S) (l : list A)
    (s : S) :
  Forall (λ x, body x s = returns s) l → for_each_o body l s = returns s.
Proof.
  induction 1 as [|x l Hx _ IH]; simpl; [done|]. by rewrite Hx.
Qed.

Lemma step_update_loop_pos (n : Z) (items : list (string * Step.Value))
    (meters : gmap string AverageMeter.t) :
  0 < n → NoDup items.*1 →
  (∀ k d, (k, Step.Dict d) ∈ items → meters !! k = None) →
  ∃ meters',
    for_each_o (λ kv, Step.update_meter n kv.1 kv.2) items meters
    = returns meters' ∧
    ∀ k, meters' !! k =
         (λ mt, match (list_to_map items : gmap string Step.Value) !! k with
                | Some (Step.Scalar v) => meter_add n v mt
                | _ => mt
                end) <$> meters !! k.
Proof.
  intros Hn. revert meters.
  induction items as [|[k0 v0] items IH]; intros meters Hnd Hdict.
  - exists meters. split; [done|]. intros k. simpl. rewrite lookup_empty.
    by destruct (meters !! k).
  - apply NoDup_cons in Hnd as [Hk0 Hnd]. simpl.
    assert (∃ m1, Step.update_meter n k0 v0 meters = returns m1 ∧
              ∀ k, m1 !! k
                   = if decide (k = k0)
                     then (λ mt, match v0 with
                                 | Step.Scalar v => meter_add n v mt
                                 | Step.Dict _ => mt
                                 end) <$> meters !! k0
                     else meters !! k) as (m1 & -> & Hm1).
    { unfold Step.update_meter. destruct (meters !! k0) as [mt|] eqn:E.
      - destruct v0 as [v|d].
        + simpl. rewrite meter_update_pos by done. eexists; split; [done|].
          intros k. simpl. case_decide; simplify_map_eq; done.
        + rewrite (Hdict k0 d) in E; [done|]. apply elem_of_cons. by left.
      - exists meters. split; [done|]. intros k. case_decide; by simplify_eq. }
    simpl. destruct (IH m1 Hnd) as (meters' & -> & Hlk).
    { intros k d Hin. rewrite Hm1. case_decide as Hk.
      - subst k. destruct Hk0. apply list_elem_of_fmap.
        by exists (k0, Step.Dict d).
      - apply (Hdict k d), elem_of_cons. by right. }
    exists meters'. split; [done|]. intros k. rewrite Hlk, Hm1.
    case_decide as Hk.
    + subst k. rewrite lookup_insert_eq.
      rewrite (not_elem_of_list_to_map_1 _ k0) by done.
      destruct (meters !! k0); [|done]. by destruct v0.
    + by rewrite lookup_insert_ne.
Qed.

Lemma step_update_items_pos (n : Z) (output : gmap string Step.Value)
    (meters : gmap string AverageMeter.t) :
  0 < n → no_metered_dict output meters →
  ∃ meters',
    for_items_o (Step.update_meter n) output meters = returns meters' ∧
    ∀ k, meters' !! k =
         (λ mt, match output !! k with
                | Some (Step.Scalar v) => meter_add n v mt
                | _ => mt
                end) <$> meters !! k.
Proof.
  intros Hn Hdict. unfold for_items_o.
  destruct (step_update_loop_pos n (map_to_list output) meters Hn)
    as (meters' & Hrun & Hlk); [apply NoDup_fst_map_to_list|..].
  { intros k d Hin. apply (Hdict k d). by apply elem_of_map_to_list. }
  exists meters'. split; [done|]. intros k. rewrite Hlk.
  by rewrite list_to_map_to_list.
Qed.

Lemma scalars_lookup (output : gmap string Step.Value) (k : string) :
  scalars output !! k
  = match output !! k with
    | Some (Step.Scalar v) => Some v
    | _ => None
    end.
Proof.
  unfold scalars. rewrite lookup_omap.
  destruct (output !! k) as [[v|d]|]; done.
Qed.

Lemma step_update_meter_nonpos (n : Z) (k : string) (v : Step.Value)
    (meters : gmap string AverageMeter.t) :
  n <= 0 →
  Step.update_meter n k v meters
  = match meters !! k with
    | Some _ => throw (Exn InvalidUpdateError)
    | None => returns meters
    end.
Proof.
  intros Hn. unfold Step.update_meter.
  destruct (meters !! k) as [mt|]; [|done]. destruct v as [v|d]; simpl.
  - by rewrite meter_update_nonpos.
  - by rewrite (proj2 (Z.leb_le n 0) Hn).
Qed.

Lemma step_items_agree (n : Z) (output : gmap string Step.Value)
    (meters : gmap string AverageMeter.t) :
  no_metered_dict output meters →
  for_items_o (Step.update_meter n) output meters
  = lift (for_items (update_meter n) (scalars output) meters).
Proof.
  intros Hdict. destruct (Z.lt_ge_cases 0 n) as [Hn|Hn].
  - destruct (step_update_items_pos n output meters Hn Hdict)
      as (m1 & -> & Hm1).
    destruct (update_items_pos n (scalars output) meters Hn)
      as (m2 & -> & Hm2).
    simpl. unfold returns. f_equal. apply map_eq. intros k.
    rewrite Hm1, Hm2, scalars_lookup.
    destruct (meters !! k); [|done]. simpl.
    by destruct (output !! k) as [[v|d]|].
  - destruct (decide (map_Exists (λ k _, is_Some (meters !! k))
                        (scalars output))) as [(k & v & Hk & Hmt)|Hnone].
    + rewrite (update_items_nonpos n _ _ k v) by done. simpl.
      rewrite scalars_lookup in Hk.
      destruct (output !! k) as [[v'|d]|] eqn:Hout; try done.
      unfold for_items_o.
      apply for_each_o_raises with (x := (k, Step.Scalar v')).
      * apply Forall_forall. intros [k' w] _. simpl.
        rewrite step_update_meter_nonpos by done.
        destruct (meters !! k'); [by right|by left].
      * by apply elem_of_map_to_list.
      * simpl. rewrite step_update_meter_nonpos by done.
        by destruct Hmt as [mt ->].
    + assert (∀ k, is_Some (output !! k) → meters !! k = None) as Hunk.
      { intros k [w Hk]. destruct (meters !! k) as [mt|] eqn:Hmt; [|done].
        destruct w as [v|d]; [|by rewrite (Hdict k d) in Hmt].
        destruct Hnone. exists k, v. split; [|by rewrite Hmt].
        by rewrite scalars_lookup, Hk. }
      rewrite update_items_unknown.
      * simpl. unfold for_items_o. apply for_each_o_unchanged.
        apply Forall_forall. intros [k w] Hin. simpl.
        apply elem_of_map_to_list in Hin. unfold Step.update_meter.
        rewrite Hunk; [done|by eexists].
      * intros k [v Hk]. apply Hunk. rewrite scalars_lookup in Hk.
        destruct (output !! k); [by eexists|done].
Qed.

Lemma nested_setdefault (key : string) (output : gmap string Step.Value) :
  dict_or_absent key output →
  Step.nested key (Step.setdefault_dict key output)
    = returns (user_dict key output) ∧
  ∀ v, <[key := v]> (Step.setdefault_dict key output) = <[key := v]> output.
Proof.
  intros Hdict. unfold Step.nested, Step.setdefault_dict, user_dict.
  destruct (output !! key) as [[v|d]|] eqn:Hkey.
  - by destruct (Hdict v).
  - by rewrite Hkey.
  - rewrite lookup_insert_eq. split; [done|]. intros v.
    apply insert_insert_eq.
Qed.

Lemma step_update_is_scalar_update_aux (stage : Stage)
    (output : gmap string Step.Value) (batch_size : Z) (self : t) :
  no_metered_dict output (stage_get stage (_metrics_meter self)) →
  Step._update_epoch_metrics stage output batch_size self
  = lift (_update_epoch_metrics stage (scalars output) batch_size self).
Proof.
  intros Hdict. unfold Step._update_epoch_metrics, _update_epoch_metrics.
  rewrite step_items_agree by done.
  by destruct (for_items _ _ _).
Qed.

(** X10. On an output none of whose dictionary entries is named like a
    meter of the stage, the update a step performs is the update of the
    scalar entries: it succeeds, fails and changes the module exactly as
    [_update_epoch_metrics] does on them. *)
Theorem step_update_is_scalar_update (stage : Stage)
    (output : gmap string Step.Value) (batch_size : Z) (self : t) :
  no_metered_dict output (stage_get stage (_metrics_meter self)) →
  Step._update_epoch_metrics stage output batch_size self
  = lift (_update_epoch_metrics stage (scalars output) batch_size self).
Proof. apply step_update_is_scalar_update_aux. Qed.

Lemma no_metered_dict_demo (stage : Stage) (self : t) :
  stage_get stage (_metrics_meter self) !! "progress_bar" = None →
  no_metered_dict demo_output (stage_get stage (_metrics_meter self)).
Proof.
  intros Hpb k d Hk. unfold demo_output in Hk.
  destruct (decide (k = "loss"%string)) as [->|?];
    [by rewrite lookup_insert_eq in Hk|rewrite lookup_insert_ne in Hk by done].
  destruct (decide (k = "acc"%string)) as [->|?];
    [by rewrite lookup_insert_eq in Hk|rewrite lookup_insert_ne in Hk by done].
  by apply lookup_singleton_Some in Hk as [<- _].
Qed.

Lemma step_update_is_scalar_update_witness :
  Step._update_epoch_metrics train demo_output 4 demo_module
  = lift (_update_epoch_metrics train (scalars demo_output) 4 demo_module).
Proof.
  apply (step_update_is_scalar_update train demo_output 4 demo_module).
  apply no_metered_dict_demo. vm_compute. reflexivity.
Defined.

Lemma shown_progress_lookup (stage : Stage) (output : gmap string Step.Value)
    (self : t) (k : string) :
  shown_progress stage output self !! k
  = if decide (k = "loss"%string) then None
    else match _get_avg_epoch_metrics stage self !! k with
         | Some a => Some a
         | None => user_dict "progress_bar" output !! k
         end.
Proof.
  unfold shown_progress. case_decide as Hk.
  - subst k. apply lookup_delete_eq.
  - rewrite lookup_delete_ne by done. rewrite lookup_union.
    destruct (_get_avg_epoch_metrics stage self !! k);
      by destruct (user_dict "progress_bar" output !! k).
Qed.

Lemma after_step_eval_eq (tr : Trainer) (env : Step.Env) (stage : Stage)
    (n : Z) (dims : list Z) (rest : list (list Z))
    (output : gmap string Step.Value) (self : t) :
  stage ≠ train →
  Step.use_dp env = false ∨ Step.use_ddp2 env = true →
  no_metered_dict output (stage_get stage (_metrics_meter self)) →
  dict_or_absent "progress_bar" output →
  Step._after_step tr env stage ((n :: dims) :: rest) output self
  = (self' ← lift (_update_epoch_metrics stage (scalars output) n self);
     returns (self',
              <["progress_bar" :=
                  Step.Dict (shown_progress stage output self')]> output)).
Proof.
  intros Hstage Hmode Hmetered Hpb. unfold Step._after_step.
  assert (negb (Step.use_dp env) || Step.use_ddp2 env = true) as ->.
  { destruct Hmode as [-> | ->]; [done|]. by destruct (Step.use_dp env). }
  simpl. rewrite step_update_is_scalar_update_aux by done.
  destruct (_update_epoch_metrics stage (scalars output) n self) as [e|self'];
    simpl; [done|].
  destruct (nested_setdefault "progress_bar" output Hpb) as [-> Hins].
  simpl. rewrite Hins. by destruct stage.
Qed.



Lemma scalars_insert_dict (k : string) (d : gmap string Q)
    (output : gmap string Step.Value) :
  dict_or_absent k output →
  scalars (<[k := Step.Dict d]> output) = scalars output.
Proof.
  intros Hk. apply map_eq. intros j. rewrite !scalars_lookup.
  destruct (decide (j = k)) as [->|Hj].
  - rewrite lookup_insert_eq.
    destruct (output !! k) as [[v|d']|] eqn:Hout; try done. by destruct (Hk v).
  - by rewrite lookup_insert_ne.
Qed.

Lemma scalars_setdefault (k : string) (output : gmap string Step.Value) :
  scalars (Step.setdefault_dict k output) = scalars output.
Proof.
  unfold Step.setdefault_dict. destruct (output !! k) eqn:Hk; [done|].
  apply scalars_insert_dict. intros v. by rewrite Hk.
Qed.

Lemma no_metered_dict_insert (k : string) (d : gmap string Q)
    (output : gmap string Step.Value) (meters : gmap string AverageMeter.t) :
  meters !! k = None → no_metered_dict output meters →
  no_metered_dict (<[k := Step.Dict d]> output) meters.
Proof.
  intros Hk Hout j d' Hj. destruct (decide (j = k)) as [->|Hne]; [done|].
  rewrite lookup_insert_ne in Hj by done. by apply (Hout j d').
Qed.

Lemma no_metered_dict_setdefault (k : string)
    (output : gmap string Step.Value) (meters : gmap string AverageMeter.t) :
  meters !! k = None → no_metered_dict output meters →
  no_metered_dict (Step.setdefault_dict k output) meters.
Proof.
  intros Hk Hout. unfold Step.setdefault_dict.
  destruct (output !! k); [done|]. by apply no_metered_dict_insert.
Qed.

Lemma update_epoch_metrics_frame (stage : Stage) (output : gmap string Q)
    (n : Z) (self self' : t) :
  _update_epoch_metrics stage output n self = ok self' →
  ∃ meters,
    self' = set_metrics_meter (stage_set stage meters (_metrics_meter self))
              self.
Proof.
  unfold _update_epoch_metrics.
  destruct (for_items _ _ _) as [e|meters]; simpl; [done|].
  intros [= <-]. by exists meters.
Qed.

Lemma update_train_step_metrics_frame (output : gmap string Q) (n : Z)
    (self self' : t) :
  ExtendedModule._update_train_step_metrics output n self = ok self' →
  ∃ meters, self' = set_train_step_meter meters self.
Proof.
  unfold ExtendedModule._update_train_step_metrics.
  destruct (for_items _ _ _) as [e|meters]; simpl; [done|].
  intros [= <-]. by exists meters.
Qed.

Lemma step_train_update_aux (output : gmap string Step.Value) (n : Z)
    (self : t) :
  no_metered_dict output (_train_step_meter self) →
  Step._update_train_step_metrics output n self
  = lift (ExtendedModule._update_train_step_metrics (scalars output) n self).
Proof.
  intros Hdict.
  unfold Step._update_train_step_metrics,
    ExtendedModule._update_train_step_metrics.
  rewrite step_items_agree by done.
  by destruct (for_items _ _ _).
Qed.

Lemma after_step_train_eq (tr : Trainer) (env : Step.Env)
    (n : Z) (dims : list Z) (rest : list (list Z))
    (output : gmap string Step.Value) (self : t) :
  Step.use_dp env = false ∨ Step.use_ddp2 env = true →
  no_metered_dict output (stage_get train (_metrics_meter self)) →
  no_metered_dict output (_train_step_meter self) →
  _train_step_meter self !! "progress_bar" = None →
  _train_step_meter self !! "log" = None →
  dict_or_absent "progress_bar" output →
  dict_or_absent "log" output →
  Step._after_step tr env train ((n :: dims) :: rest) output self
  = (self1 ← lift (_update_epoch_metrics train (scalars output) n self);
     self2 ← lift (ExtendedModule._update_train_step_metrics
                     (scalars output) n self1);
     let log :=
       _add_extended_log tr
         (Step._get_avg_train_step_metrics Step.stepwise_name self2
          ∪ user_dict "log" output) in
     let out :=
       <["log" := Step.Dict log]>
         (<["progress_bar" :=
              Step.Dict (shown_progress train output self1)]> output) in
     if Step.row_log_interval env =? 0 then throw ZeroDivisionError
     else returns
            (if Step.batch_idx env mod Step.row_log_interval env =? 0
             then _reset_train_step_metrics self2 else self2, out)).
Proof.
  intros Hmode Hepoch Hstep Hpbm Hlogm Hpb Hlog. unfold Step._after_step.
  assert (negb (Step.use_dp env) || Step.use_ddp2 env = true) as ->.
  { destruct Hmode as [-> | ->]; [done|]. by destruct (Step.use_dp env). }
  simpl. rewrite step_update_is_scalar_update_aux by done.
  destruct (_update_epoch_metrics train (scalars output) n self)
    as [e|self1] eqn:Hupd; simpl; [done|].
  apply update_epoch_metrics_frame in Hupd as [meters ->].
  destruct (nested_setdefault "progress_bar" output Hpb) as [-> Hins].
  simpl. rewrite Hins.
  set (self1 := set_metrics_meter _ self).
  set (output1 := <["progress_bar" := _]> output).
  assert (dict_or_absent "log" output1) as Hlog1.
  { intros v. unfold output1. rewrite lookup_insert_ne by done. apply Hlog. }
  assert (user_dict "log" output1 = user_dict "log" output) as Huser.
  { unfold user_dict, output1. by rewrite lookup_insert_ne. }
  rewrite step_train_update_aux.
  2:{ apply no_metered_dict_setdefault; [done|].
      by apply no_metered_dict_insert. }
  assert (scalars (Step.setdefault_dict "log" output1) = scalars output) as ->.
  { rewrite scalars_setdefault. unfold output1. by apply scalars_insert_dict. }
  destruct (ExtendedModule._update_train_step_metrics (scalars output) n self1)
    as [e|self2]; simpl; [done|].
  destruct (nested_setdefault "log" output1 Hlog1) as [-> Hins1].
  simpl. rewrite Hins1, Huser.
  destruct (Step.row_log_interval env =? 0); [done|].
  by destruct (Step.batch_idx env mod Step.row_log_interval env =? 0).
Qed.

Global Instance stepwise_name_inj : Inj (=) (=) Step.stepwise_name.
Proof.
  intros n1 n2 Hn. unfold Step.stepwise_name in Hn.
  by apply (inj (String.append _)) in Hn.
Qed.

Lemma stepwise_log_lookup (tr : Trainer) (self : t) (user : gmap string Q) :
  let log :=
    _add_extended_log tr
      (Step._get_avg_train_step_metrics Step.stepwise_name self ∪ user) in
  log !! "system/epoch" = Some (inject_Z (current_epoch tr)) ∧
  log !! "system/global_step" = Some (inject_Z (global_step tr)) ∧
  (∀ m mt, _train_step_meter self !! m = Some mt →
           log !! Step.stepwise_name m = Some (AverageMeter.value mt)).
Proof.
  intros log. unfold log, _add_extended_log. split; [|split].
  - apply lookup_insert_eq.
  - rewrite lookup_insert_ne by done. apply lookup_insert_eq.
  - intros m mt Hm. rewrite !lookup_insert_ne by done.
    apply lookup_union_Some_l. unfold Step._get_avg_train_step_metrics.
    rewrite (dict_rekey_lookup Step.stepwise_name) by apply _.
    by rewrite lookup_fmap, Hm.
Qed.



Lemma for_each_o_errors {A S} (P : exception → Prop)
    (body : A → S → outcome S) (l : list A) :
  (∀ x s e, body x s = throw e → P e) →
  ∀ s e, for_each_o body l s = throw e → P e.
Proof.
  intros Hbody. induction l as [|x l IH]; intros s e; simpl; [done|].
  destruct (body x s) as [e'|s1] eqn:Hx; simpl.
  - intros [= <-]. by apply (Hbody x s).
  - apply IH.
Qed.

Lemma step_update_errors (n : Z) (output : gmap string Step.Value)
    (meters : gmap string AverageMeter.t) (e : exception) :
  for_items_o (Step.update_meter n) output meters = throw e →
  e = Exn InvalidUpdateError ∨ e = TypeError.
Proof.
  unfold for_items_o.
  apply (for_each_o_errors (λ e, e = Exn InvalidUpdateError ∨ e = TypeError)).
  clear. intros [k v] meters e. simpl. unfold Step.update_meter.
  destruct (meters !! k) as [mt|]; [|done].
  destruct v as [v|d]; simpl.
  - unfold AverageMeter.update. destruct (n <=? 0); simpl; [|done].
    intros [= <-]. by left.
  - destruct (n <=? 0); intros [= <-]; [by left|by right].
Qed.

Lemma bind_never {A B} (e0 : exception) (c : outcome A) (k : A → outcome B) :
  c ≠ throw e0 → (∀ a, k a ≠ throw e0) → c ≫= k ≠ throw e0.
Proof. intros Hc Hk. destruct c as [e|a]; simpl; [by intros [= ->]|apply Hk]. Qed.

Lemma step_update_never_asserts (n : Z) (output : gmap string Step.Value)
    (meters : gmap string AverageMeter.t) :
  for_items_o (Step.update_meter n) output meters
  ≠ throw (Exn AssertionError).
Proof. by intros [|]%step_update_errors. Qed.

Lemma nested_never_asserts (key : string) (output : gmap string Step.Value) :
  Step.nested key output ≠ throw (Exn AssertionError).
Proof. unfold Step.nested. by repeat case_match. Qed.

Lemma get_batch_size_never_asserts (batch : list (list Z)) :
  Step.get_batch_size batch ≠ throw (Exn AssertionError).
Proof. by destruct batch as [|[|]]. Qed.



(** ** What an update and an epoch start leave alone *)

Lemma update_loop_touches (n : Z) (output : gmap string Q)
    (meters meters' : gmap string AverageMeter.t) :
  for_items (update_meter n) output meters = ok meters' →
  ∀ k, (is_Some (meters' !! k) ↔ is_Some (meters !! k)) ∧
       (output !! k = None → meters' !! k = meters !! k).
Proof.
  unfold for_items. intros Hrun k.
  apply (for_each_preserves
           (λ m, (is_Some (m !! k) ↔ is_Some (meters !! k)) ∧
                 (output !! k = None → m !! k = meters !! k))
           (λ kv, update_meter n kv.1 kv.2) (map_to_list output))
    with (s := meters); [|done|done].
  intros [k0 v0] m m' Hin [Hdom Hout]. simpl.
  apply elem_of_map_to_list in Hin. unfold update_meter.
  destruct (m !! k0) as [mt|] eqn:Hk0; [|by intros [= <-]].
  destruct (AverageMeter.update mt v0 n) as [e|mt']; simpl; [done|].
  intros [= <-]. destruct (decide (k = k0)) as [->|Hne].
  - rewrite lookup_insert_eq. split.
    + rewrite <- Hdom, Hk0. split; by eexists.
    + by rewrite Hin.
  - by rewrite lookup_insert_ne.
Qed.

(** X14. A successful [_update_epoch_metrics] neither creates nor drops a
    meter, changes no meter whose name is not a key of the output, and
    leaves the meters of the other stages, the training-step meters, the
    history, the best values, their specification and the started flag
    as they were. *)
Theorem update_epoch_metrics_touches (stage : Stage) (output : gmap string Q)
    (n : Z) (self self' : t) :
  _update_epoch_metrics stage output n self = ok self' →
  (∀ st k, is_Some (stage_get st (_metrics_meter self') !! k)
           ↔ is_Some (stage_get st (_metrics_meter self) !! k)) ∧
  (∀ k, output !! k = None →
        stage_get stage (_metrics_meter self') !! k
        = stage_get stage (_metrics_meter self) !! k) ∧
  (∀ st, st ≠ stage →
         stage_get st (_metrics_meter self')
         = stage_get st (_metrics_meter self)) ∧
  _train_step_meter self' = _train_step_meter self ∧
  _metrics_history self' = _metrics_history self ∧
  _best_metrics_values self' = _best_metrics_values self ∧
  _best_metrics_spec self' = _best_metrics_spec self ∧
  _is_training_started self' = _is_training_started self.
Proof.
  unfold _update_epoch_metrics.
  destruct (for_items _ _ _) as [e|meters] eqn:Hloop; simpl; [done|].
  intros [= <-]. simpl.
  pose proof (update_loop_touches n output _ _ Hloop) as Htouch.
  split; [|split; [|split; [|done]]].
  - intros st k. rewrite stage_get_set. case_decide as Hst; [|done].
    subst st. apply Htouch.
  - intros k Hk. rewrite stage_get_set, decide_True by done. by apply Htouch.
  - intros st Hst. by rewrite stage_get_set, decide_False.
Qed.

Lemma update_epoch_metrics_touches_witness :
  ∃ self',
    _update_epoch_metrics train {["loss" := 1 # 2]}%Q 4 demo_module = ok self' ∧
    stage_get train (_metrics_meter self') !! "acc"
    = stage_get train (_metrics_meter demo_module) !! "acc" ∧
    stage_get val (_metrics_meter self') = stage_get val (_metrics_meter demo_module).
Proof.
  destruct (_update_epoch_metrics train {["loss" := 1 # 2]}%Q 4 demo_module)
    as [e|self'] eqn:Hupd; [vm_compute in Hupd; discriminate|].
  exists self'. split; [reflexivity|].
  destruct (update_epoch_metrics_touches train {["loss" := 1 # 2]}%Q 4
              demo_module self' Hupd) as (_ & Hkeys & Hstages & _).
  split; [apply Hkeys; vm_compute; reflexivity|apply Hstages; discriminate].
Defined.

(** X15. [on_epoch_start] marks training as started and zeroes every
    epoch meter of every stage and every training-step meter without
    creating or dropping one; it keeps the history, the best values and
    their specification, and running it twice is the same as running it
    once.  Resetting a single stage leaves the meters of the other
    stages alone. *)
Theorem epoch_start_resets_meters_only (self : t) :
  _is_training_started (on_epoch_start self) = true ∧
  (∀ st, stage_get st (_metrics_meter (on_epoch_start self))
         = AverageMeter.reset <$> stage_get st (_metrics_meter self)) ∧
  _train_step_meter (on_epoch_start self)
    = AverageMeter.reset <$> _train_step_meter self ∧
  _metrics_history (on_epoch_start self) = _metrics_history self ∧
  _best_metrics_values (on_epoch_start self) = _best_metrics_values self ∧
  _best_metrics_spec (on_epoch_start self) = _best_metrics_spec self ∧
  on_epoch_start (on_epoch_start self) = on_epoch_start self ∧
  (∀ stage st, st ≠ stage →
     stage_get st (_metrics_meter (_reset_epoch_metrics (Some stage) self))
     = stage_get st (_metrics_meter self)).
Proof.
  assert (∀ m : gmap string AverageMeter.t,
            AverageMeter.reset <$> (AverageMeter.reset <$> m)
            = AverageMeter.reset <$> m) as Hidem.
  { intros m. rewrite <- map_fmap_compose. done. }
  split; [done|]. split; [by intros []; destruct self as [? [] ? ? ? ? ?]|].
  split; [by destruct self as [? [] ? ? ? ? ?]|].
  split; [by destruct self as [? [] ? ? ? ? ?]|].
  split; [by destruct self as [? [] ? ? ? ? ?]|].
  split; [by destruct self as [? [] ? ? ? ? ?]|].
  split.
  - destruct self as [? [] ? ? ? ? ?]. unfold on_epoch_start. simpl.
    unfold set_is_training_started, _reset_train_step_metrics,
      set_train_step_meter, set_metrics_meter. simpl.
    by rewrite !Hidem.
  - intros stage st Hst. by destruct stage, st, self as [? [] ? ? ? ? ?].
Qed.

(** ** Run names from overrides *)

Global Instance pair_le_total : Total ConfigUtils.pair_le.
Proof.
  intros [k1 v1] [k2 v2]. unfold ConfigUtils.pair_le. simpl.
  repeat case_decide; try congruence; apply (total String.le).
Qed.

Global Instance pair_le_trans : Transitive ConfigUtils.pair_le.
Proof.
  intros [k1 v1] [k2 v2] [k3 v3]. unfold ConfigUtils.pair_le. simpl.
  repeat case_decide; simplify_eq; try done; intros Hle1 Hle2.
  - by etrans.
  - exfalso. by apply H, (anti_symm String.le).
  - by etrans.
Qed.

Global Instance pair_le_anti_symm : AntiSymm (=) ConfigUtils.pair_le.
Proof.
  intros [k1 v1] [k2 v2]. unfold ConfigUtils.pair_le. simpl.
  repeat case_decide; simplify_eq; intros Hle1 Hle2.
  - f_equal. by apply (anti_symm String.le).
  - exfalso. by apply H, (anti_symm String.le).
Qed.

Lemma split_first_contains (c : ascii) (s : string) :
  is_Some (ConfigUtils.split_first c s) ↔ contains_char c s = true.
Proof.
  induction s as [|a s IH]; simpl.
  - split; [by intros [? ?]|done].
  - destruct (Ascii.eqb a c); [by split; [|eexists]|].
    rewrite <- IH. destruct (ConfigUtils.split_first c s) as [[k v]|];
      split; intros [? ?]; by eexists.
Qed.

Lemma add_override_cases (fnmatch : string → string → bool)
    (shorthand longhand : gmap string string)
    (override_cfg : ConfigUtils.OverrideName) (arg : string)
    (args : list (string * string)) :
  ConfigUtils.add_override fnmatch shorthand longhand override_cfg arg args
  = if has_equals arg
    then ok (args ++ option_list
                       (kept_override fnmatch shorthand longhand
                          override_cfg arg))
    else raise AssertionError.
Proof.
  unfold kept_override, ConfigUtils.add_override, has_equals.
  pose proof (split_first_contains "=" arg) as Hsplit.
  destruct (ConfigUtils.split_first "=" arg) as [[key value]|].
  - rewrite (proj1 Hsplit) by (by eexists).
    destruct (match ConfigUtils.include_keys override_cfg with
              | Some _ => _ | None => _ end); simpl; [done|].
    by rewrite app_nil_r.
  - destruct (contains_char "=" arg); [|done].
    by destruct (proj2 Hsplit eq_refl).
Qed.

Lemma add_override_loop (fnmatch : string → string → bool)
    (shorthand longhand : gmap string string)
    (override_cfg : ConfigUtils.OverrideName) (overrides : list string)
    (args : list (string * string)) :
  for_each (ConfigUtils.add_override fnmatch shorthand longhand override_cfg)
    overrides args
  = if forallb has_equals overrides
    then ok (args ++ omap (kept_override fnmatch shorthand longhand
                             override_cfg) overrides)
    else raise AssertionError.
Proof.
  revert args. induction overrides as [|arg overrides IH]; intros args; simpl.
  - by rewrite app_nil_r.
  - rewrite add_override_cases. destruct (has_equals arg); simpl; [|done].
    rewrite IH. destruct (forallb has_equals overrides); [|done].
    destruct (kept_override _ _ _ _ arg); simpl; by rewrite <- app_assoc.
Qed.

Lemma forallb_Permutation {A} (f : A → bool) (l1 l2 : list A) :
  l1 ≡ₚ l2 → forallb f l1 = forallb f l2.
Proof.
  induction 1 as [|x l1 l2 _ IH|x y l|l1 l2 l3 _ IH1 _ IH2]; simpl.
  - done.
  - by rewrite IH.
  - by destruct (f x), (f y).
  - by rewrite IH1.
Qed.



Example override_name_demo :
  ConfigUtils.omlet_override_name exact_match true true [] demo_override_cfg
    ["lr=0.2"; "gpus=4"; "arch=resnet18"]%string
  = ok "arch=resnet18,lr=0.2"%string.
Proof. vm_compute. reflexivity. Qed.

Lemma add_shorthand_loop {V} (shorthand : list (string * string))
    (cfg : gmap string V) (shortset : list string) :
  (NoDup shorthand.*2 ∧ Forall (λ s, s ∉ shortset) shorthand.*2 →
   ∃ cfg' shortset',
     for_each ConfigUtils.add_shorthand shorthand (cfg, shortset)
     = ok (cfg', shortset') ∧
     ∀ k, k ∉ shorthand.*1 → k ∉ shorthand.*2 → cfg' !! k = cfg !! k) ∧
  (¬ (NoDup shorthand.*2 ∧ Forall (λ s, s ∉ shortset) shorthand.*2) →
   for_each ConfigUtils.add_shorthand shorthand (cfg, shortset)
   = raise KeyError).
Proof.
  revert cfg shortset.
  induction shorthand as [|[original short] shorthand IH]; intros cfg shortset.
  { split; [by eexists _, _|]. intros Hbad. destruct Hbad.
    split; constructor. }
  rewrite for_each_cons. cbn [fmap list_fmap fst snd].
  change (ConfigUtils.add_shorthand (original, short) (cfg, shortset))
    with (if bool_decide (short ∈ shortset) then raise KeyError
          else ok (match cfg !! short with
                   | Some value => delete short (<[original := value]> cfg)
                   | None => cfg
                   end, short :: shortset)
          : result (gmap string V * list string)).
  destruct (decide (short ∈ shortset)) as [Hin|Hin].
  - rewrite bool_decide_eq_true_2 by done. split; [|done].
    intros [_ Hall]. by apply Forall_cons in Hall as [? _].
  - rewrite bool_decide_eq_false_2 by done. simpl.
    set (cfg1 := match cfg !! short with
                 | Some value => delete short (<[original := value]> cfg)
                 | None => cfg
                 end).
    destruct (IH cfg1 (short :: shortset)) as [IHok IHbad].
    assert (NoDup (short :: shorthand.*2) ∧
            Forall (λ s, s ∉ shortset) (short :: shorthand.*2)
            ↔ NoDup shorthand.*2 ∧
              Forall (λ s, s ∉ short :: shortset) shorthand.*2) as Hiff.
    { rewrite NoDup_cons, Forall_cons. split.
      - intros [[Hs Hnd] [Hss Hall]]. split; [done|].
        apply Forall_forall. intros s Hs'. apply not_elem_of_cons.
        split; [by intros ->|]. by eapply Forall_forall in Hall.
      - intros [Hnd Hall]. rewrite Forall_forall in Hall.
        split; [split; [|done]|split; [done|]].
        + intros Hs. by apply Hall in Hs as [? ?]%not_elem_of_cons.
        + apply Forall_forall. intros s Hs.
          by apply Hall in Hs as [? ?]%not_elem_of_cons. }
    split.
    + intros Hcond. apply Hiff in Hcond.
      destruct (IHok Hcond) as (cfg' & shortset' & -> & Hkeep).
      exists cfg', shortset'. split; [done|].
      intros k [Hk1 Hk1']%not_elem_of_cons [Hk2 Hk2']%not_elem_of_cons.
      rewrite Hkeep by done. unfold cfg1.
      destruct (cfg !! short); [|done].
      by rewrite lookup_delete_ne, lookup_insert_ne.
    + intros Hbad. apply IHbad. by rewrite <- Hiff.
Qed.

(** X17. The shorthand pass of [initialize_omlet_config] succeeds exactly
    when no short name is declared twice, and raises [KeyError]
    otherwise; when it succeeds, every entry of the configuration whose
    name is neither an original nor a short name is kept as it is. *)
Theorem shorthands_need_distinct_short_names {V}
    (shorthand : list (string * string)) (cfg : gmap string V) :
  (NoDup shorthand.*2 →
   ∃ cfg',
     ConfigUtils.process_shorthands shorthand cfg = ok cfg' ∧
     ∀ k, k ∉ shorthand.*1 → k ∉ shorthand.*2 → cfg' !! k = cfg !! k) ∧
  (¬ NoDup shorthand.*2 →
   ConfigUtils.process_shorthands shorthand cfg = raise KeyError).
Proof.
  unfold ConfigUtils.process_shorthands.
  destruct (add_shorthand_loop shorthand cfg []) as [Hok Hbad]. split.
  - intros Hnd. destruct Hok as (cfg' & shortset' & -> & Hkeep).
    { split; [done|]. apply Forall_forall. intros s _. apply not_elem_of_nil. }
    by exists cfg'.
  - intros Hnd. rewrite Hbad; [done|]. by intros [? _].
Qed.

Lemma shorthands_need_distinct_short_names_witness :
  NoDup [("learning_rate", "lr"); ("batch_size", "bs")]%string.*2 ∧
  ∃ cfg',
    ConfigUtils.process_shorthands
      [("learning_rate", "lr"); ("batch_size", "bs")]%string
      ({["lr" := 1; "gpus" := 4]} : gmap string Z) = ok cfg' ∧
    cfg' !! "gpus" = Some 4.
Proof.
  assert (NoDup [("learning_rate", "lr"); ("batch_size", "bs")]%string.*2)
    as Hnd by (apply (bool_decide_unpack _); vm_compute; exact I).
  split; [exact Hnd|].
  destruct (shorthands_need_distinct_short_names
              [("learning_rate", "lr"); ("batch_size", "bs")]%string
              ({["lr" := 1; "gpus" := 4]} : gmap string Z)) as [Hok _].
  destruct (Hok Hnd) as (cfg' & Hrun & Hkeep).
  exists cfg'. split; [exact Hrun|]. rewrite Hkeep.
  - vm_compute. reflexivity.
  - apply (bool_decide_unpack _). vm_compute. exact I.
  - apply (bool_decide_unpack _). vm_compute. exact I.
Defined.

Example shorthand_moves_value :
  ConfigUtils.process_shorthands [("learning_rate", "lr")]%string
    ({["lr" := 1; "gpus" := 4]} : gmap string Z)
  = ok {["learning_rate" := 1; "gpus" := 4]}.
Proof. vm_compute. reflexivity. Qed.

Example shorthand_duplicate :
  ConfigUtils.process_shorthands
    [("learning_rate", "lr"); ("lr_decay", "lr")]%string
    ({["gpus" := 4]} : gmap string Z)
  = raise KeyError.
Proof. vm_compute. reflexivity. Qed.

(** ** Reading the best value *)

Lemma good_refl (direction : string) (v : Q) :
  direction = "max" ∨ direction = "min" → at_least_as_good direction v v.
Proof.
  intros [-> | ->]; [left|right]; (split; [done|]); apply Qle_refl.
Qed.



Lemma check_run_name_accepts_witness :
  _check_run_name "arch=resnet18,lr=0.2" = ok tt.
Proof.
  apply (check_run_name_accepts "arch=resnet18,lr=0.2").
  intros c Hc. unfold special_chars in Hc. simpl in Hc.
  repeat (apply elem_of_cons in Hc as [->|Hc]; [reflexivity|]).
  by apply elem_of_nil in Hc.
Defined.

Lemma epoch_start_resets_meters_only_witness :
  train ≠ val ∧
  stage_get train
    (_metrics_meter (_reset_epoch_metrics (Some val) demo_trained))
  = stage_get train (_metrics_meter demo_trained) ∧
  on_epoch_start (on_epoch_start demo_trained) = on_epoch_start demo_trained.
Proof.
  split; [discriminate|].
  destruct (epoch_start_resets_meters_only demo_trained)
    as (_ & _ & _ & _ & _ & _ & Hidem & Hother).
  split; [apply Hother; discriminate|exact Hidem].
Defined.

(** ** The patched step methods *)

Lemma update_epoch_metrics_names (stage : Stage) (output : gmap string Q)
    (n : Z) (self self' : t) :
  _update_epoch_metrics stage output n self = ok self' →
  ∀ st k, stage_get st (_metrics_meter self') !! k = None
          ↔ stage_get st (_metrics_meter self) !! k = None.
Proof.
  unfold _update_epoch_metrics.
  destruct (for_items _ _ _) as [e|meters] eqn:Hloop; simpl; [done|].
  intros [= <-] st k. simpl. rewrite stage_get_set.
  case_decide as Hst; [|done]. subst st.
  destruct (update_loop_touches n output _ _ Hloop k) as [Hsome _].
  rewrite <- !not_eq_None_Some in Hsome. 
  destruct (meters !! k), (stage_get stage (_metrics_meter self) !! k);
    try done; exfalso; [apply (proj1 Hsome)|apply (proj2 Hsome)]; done.
Qed.

Lemma step_ready_after_update (stage st : Stage)
    (output : gmap string Step.Value) (shown : gmap string Q) (n : Z)
    (self self' : t) :
  _update_epoch_metrics stage (scalars output) n self = ok self' →
  dict_or_absent "progress_bar" output →
  step_ready st output self →
  step_ready st (<["progress_bar" := Step.Dict shown]> output) self'.
Proof.
  intros Hupd Hpb (Hdict & Hname & _).
  pose proof (update_epoch_metrics_names _ _ _ _ _ Hupd st) as Hnames.
  split; [|split].
  - apply no_metered_dict_insert; [by apply Hnames|].
    intros k d Hk. apply Hnames. by apply (Hdict k d).
  - by apply Hnames.
  - intros v. by rewrite lookup_insert_eq.
Qed.

Lemma eval_pass (tr : Trainer) (env : Step.Env) (stage : Stage)
    (n : Z) (dims : list Z) (rest : list (list Z))
    (output : gmap string Step.Value) (self : t) :
  stage ≠ train →
  Step.use_dp env = false ∨ Step.use_ddp2 env = true →
  step_ready stage output self →
  match _update_epoch_metrics stage (scalars output) n self with
  | inl e =>
      Step._after_step tr env stage ((n :: dims) :: rest) output self
      = throw (Exn e)
  | inr self' =>
      ∃ output',
        Step._after_step tr env stage ((n :: dims) :: rest) output self
        = returns (self', output') ∧
        scalars output' = scalars output ∧
        ∀ st, step_ready st output self → step_ready st output' self'
  end.
Proof.
  intros Hstage Hmode (Hdict & Hname & Hpb).
  rewrite after_step_eval_eq by done.
  destruct (_update_epoch_metrics stage (scalars output) n self)
    as [e|self'] eqn:Hupd; simpl; [done|].
  eexists. split; [done|]. split; [by apply scalars_insert_dict|].
  intros st Hready. by eapply step_ready_after_update.
Qed.

Lemma new_patches_steps (cls : Patch.Class) :
  Patch.__new__ cls
  = Patch.mkClass (Patch.Wrapped train (Patch.training_step cls))
      (Patch.Wrapped val (Patch.validation_step cls))
      (Patch.WrappedTest test (Patch.test_step cls)).
Proof. done. Qed.

Lemma new_validation_step (k : nat) (cls : Patch.Class) :
  Patch.validation_step (Nat.iter k Patch.__new__ cls)
  = Nat.iter k (Patch.Wrapped val) (Patch.validation_step cls).
Proof. induction k as [|k IH]; simpl; [done|]. by rewrite IH. Qed.

Lemma wrapped_validation_passes (tr : Trainer) (env : Step.Env)
    (vstep : Patch.Step) (n : Z) (dims : list Z) (rest : list (list Z))
    (self self0 : t) (output : gmap string Step.Value) (k : nat) :
  vstep ((n :: dims) :: rest) self = returns (self0, output) →
  Step.use_dp env = false ∨ Step.use_ddp2 env = true →
  step_ready val output self0 →
  let step :=
    Patch.call tr env (Nat.iter k (Patch.Wrapped val) (Patch.Subclass vstep))
      ((n :: dims) :: rest) self in
  match repeated_update k val (scalars output) n self0 with
  | inl e => step = throw (Exn e)
  | inr self' =>
      ∃ output',
        step = returns (self', output') ∧
        scalars output' = scalars output ∧
        ∀ st, step_ready st output self0 → step_ready st output' self'
  end.
Proof.
  intros Hvstep Hmode Hready.
  induction k as [|k IH]; simpl; [by exists output|].
  simpl in IH.
  destruct (repeated_update k val (scalars output) n self0) as [e|self1];
    simpl; [by rewrite IH|].
  destruct IH as (output1 & -> & Hscalars & Hkeep). simpl.
  pose proof (eval_pass tr env val n dims rest output1 self1) as Hpass.
  rewrite Hscalars in Hpass.
  destruct (_update_epoch_metrics val (scalars output) n self1) as [e|self2].
  - apply Hpass; [done|done|by apply Hkeep].
  - destruct Hpass as (output2 & -> & Hscalars2 & Hkeep2);
      [done|done|by apply Hkeep|].
    exists output2. split; [done|]. split; [done|].
    intros st Hst. by apply Hkeep2, Hkeep.
Qed.

Lemma step_ready_demo (stage : Stage) :
  step_ready stage demo_output demo_module.
Proof.
  assert (stage_get stage (_metrics_meter demo_module) !! "progress_bar"
          = None) as Hpb by (by destruct stage).
  split; [by apply no_metered_dict_demo|]. split; [done|].
  intros v. vm_compute. discriminate.
Qed.




